(** * Forecast dashboard (main.py): a shallow embedding and its properties

    The program is a Streamlit script: it queries one table, builds a pandas
    frame, plots the selected series, renames the frame for StatsForecast and
    offers the forecast as a CSV download.

    Frames are objects of a store (the script mutates two of them in place:
    [df["volume"] = ...] and [rename(..., inplace=True)]), the module-level
    name [df] is a binding that may be absent, exceptions end a call, and what
    the script shows or requests is a trace of events.  The forecasting
    library is a parameter of the development.

    Scope of the data: cells are JSON scalars without fractional numbers, text
    is ASCII, records are flat; the platform is one where [int] is int64 and
    lines end in a line feed.  The memoising decorators are not part of the
    model: every call runs its body, and the trace records what the script
    itself asks for, not the spinner a cache decorator shows by default while
    a body runs (the spinner [make_predictions] names is recorded). *)

From Stdlib Require Import ZArith String Ascii List Lia DecimalString.
From stdpp Require Import gmap strings list fin_maps.
From Stdlib Require DecimalFacts DecimalPos DecimalZ.

Local Open Scope string_scope.
Local Open Scope Z_scope.

(** ** Values and exceptions *)

(** What a cell holds: JSON [null], the NaN pandas puts where a record has no
    such key, a boolean, an integer, or text. *)
Inductive value : Type :=
  | VNull
  | VNaN
  | VBool (b : bool)
  | VInt (z : Z)
  | VStr (s : string).

#[global] Instance value_eq_dec : EqDecision value.
Proof. solve_decision. Defined.

Inductive exn : Type :=
  | NameError (name : string)
  | KeyError (key : string)
  | ValueError
  | TypeError
  | OverflowError
  | SystemError
  | LibraryError (msg : string).

Inductive result (A : Type) : Type :=
  | Ok (a : A)
  | Raise (e : exn).
Arguments Ok {A} a.
Arguments Raise {A} e.

Definition is_ok {A} (r : result A) : bool :=
  match r with Ok _ => true | Raise _ => false end.

(** ** Python's [int(str)], as numpy applies it to every object cell *)

Module PyInt.

(** The white space [int] skips around an ASCII text: TAB..CR and the
    blank. *)
Definition is_space (c : ascii) : bool :=
  let n := nat_of_ascii c in
  ((9 <=? n) && (n <=? 13) || (n =? 32))%nat.

Definition digit_of (c : ascii) : option Z :=
  let n := nat_of_ascii c in
  if ((48 <=? n) && (n <=? 57))%nat then Some (Z.of_nat (n - 48)) else None.

Definition is_underscore (c : ascii) : bool := (nat_of_ascii c =? 95)%nat.

(** Digits with single underscores between them; [after_digit] says whether
    the previous character was a digit.  Returns the number read, how many
    digits it has and the unread rest. *)
Fixpoint scan_digits (cs : list ascii) (acc : Z) (n : nat) (after_digit : bool)
  : option (Z * nat * list ascii) :=
  match cs with
  | [] => if after_digit then Some (acc, n, []) else None
  | c :: cs' =>
      match digit_of c with
      | Some d => scan_digits cs' (10 * acc + d) (S n) true
      | None =>
          if is_underscore c
          then (if after_digit then scan_digits cs' acc n false else None)
          else (if after_digit then Some (acc, n, c :: cs') else None)
      end
  end.

Fixpoint skip_spaces (cs : list ascii) : list ascii :=
  match cs with
  | c :: cs' => if is_space c then skip_spaces cs' else cs
  | [] => []
  end.

(** [sys.get_int_max_str_digits()] *)
Definition max_str_digits : nat := 4300.

Definition parse_sign (cs : list ascii) : Z * list ascii :=
  match cs with
  | c :: cs' =>
      if (nat_of_ascii c =? 45)%nat then (-1, cs')
      else if (nat_of_ascii c =? 43)%nat then (1, cs')
      else (1, cs)
  | [] => (1, [])
  end.

Definition int_of_string (s : string) : option Z :=
  let (sign, cs) := parse_sign (skip_spaces (list_ascii_of_string s)) in
  match scan_digits cs 0 0 false with
  | Some (z, n, rest) =>
      match skip_spaces rest with
      | [] => if (n <=? max_str_digits)%nat then Some (sign * z) else None
      | _ :: _ => None
      end
  | None => None
  end.

End PyInt.

(** ** [Series.astype(int)] *)

(** The cells of a column of dtype int64. *)
Definition int64_min : Z := - 2 ^ 63.
Definition int64_max : Z := 2 ^ 63 - 1.
Definition in_int64 (z : Z) : bool := (int64_min <=? z) && (z <=? int64_max).

Definition is_int64 (v : value) : bool :=
  match v with VInt z => in_int64 z | _ => false end.

Definition uint64_max : Z := 2 ^ 64 - 1.

(** One cell of a column of Python objects: numpy stores [int(x)]. *)
Definition to_int64 (v : value) : result Z :=
  match v with
  | VInt z => if in_int64 z then Ok z else Raise OverflowError
  | VBool b => Ok (if b then 1 else 0)
  | VStr s =>
      match PyInt.int_of_string s with
      | Some z => if in_int64 z then Ok z else Raise OverflowError
      | None => Raise ValueError
      end
  | VNull => Raise TypeError
  | VNaN => Raise ValueError
  end.

(** A column of Python objects, cell by cell: every cell or none. *)
Fixpoint astype_int_object (vs : list value) : result (list value) :=
  match vs with
  | [] => Ok []
  | v :: vs' =>
      match to_int64 v with
      | Ok z =>
          match astype_int_object vs' with
          | Ok zs => Ok (VInt z :: zs)
          | Raise e => Raise e
          end
      | Raise e => Raise e
      end
  end.

(** The dtype of a column of the normalised frame.  pandas infers it from
    the cells ([lib.maybe_convert_objects]): integers alone give int64, or
    uint64 when some exceed int64 and none is negative; booleans alone give
    bool; integers with a null or missing cell give float64, the gaps NaN;
    anything with text, booleans mixed with something else, integers that fit
    neither integer dtype and nulls alone stay Python objects. *)
Inductive dtype : Type := DInt64 | DUInt64 | DBool | DFloat64 | DObject.

Definition is_null (v : value) : bool :=
  match v with VNull => true | _ => false end.

Definition is_nan (v : value) : bool :=
  match v with VNaN => true | _ => false end.

Definition is_bool (v : value) : bool :=
  match v with VBool _ => true | _ => false end.

Definition is_int (v : value) : bool :=
  match v with VInt _ => true | _ => false end.

Definition is_str (v : value) : bool :=
  match v with VStr _ => true | _ => false end.

(** The scan of the integers: does one fit neither int64 nor uint64, or do a
    negative one and one beyond int64 meet?  An integer that comes after a
    [None] is only kept as a float and not looked at. *)
Fixpoint int_overflow (null sint uint : bool) (vs : list value) : bool :=
  match vs with
  | [] => false
  | VNull :: vs' => int_overflow true sint uint vs'
  | VInt z :: vs' =>
      if null then int_overflow null sint uint vs'
      else
        let sint' := sint || ((int64_min <=? z) && (z <? 0)) in
        let uint' := uint || ((int64_max <? z) && (z <=? uint64_max)) in
        if (uint' && sint') || (uint64_max <? z) || (z <? int64_min) then true
        else int_overflow null sint' uint' vs'
  | _ :: vs' => int_overflow null sint uint vs'
  end.

Definition infer_dtype (vs : list value) : dtype :=
  if existsb is_str vs then DObject
  else if int_overflow false false false vs then DObject
  else if existsb is_bool vs then (if forallb is_bool vs then DBool else DObject)
  else if existsb is_null vs || existsb is_nan vs
  then (if existsb is_int vs || existsb is_nan vs then DFloat64 else DObject)
  else if existsb (fun v => match v with VInt z => int64_max <? z | _ => false end) vs
  then DUInt64
  else DInt64.

(** The cast of a uint64 cell to int64 keeps the bits. *)
Definition wrap_int64 (z : Z) : Z := if z <=? int64_max then z else z - 2 ^ 64.

(** [Series.astype(int)], by the dtype of the column: int64 stays, uint64
    wraps, booleans become 0 and 1, a float64 column of this program holds a
    NaN and cannot be cast, Python objects go through [int] one by one. *)
Definition astype_int (vs : list value) : result (list value) :=
  match infer_dtype vs with
  | DInt64 => Ok vs
  | DUInt64 =>
      Ok (map (fun v => match v with VInt z => VInt (wrap_int64 z) | _ => v end) vs)
  | DBool =>
      Ok (map (fun v => match v with VBool b => VInt (if b then 1 else 0) | _ => v end) vs)
  | DFloat64 => Raise ValueError
  | DObject => astype_int_object vs
  end.

(** ** Frames *)

(** A frame is its row labels and its labelled columns, in order. *)
Record frame : Type := Frame {
  index : list Z;
  cols : list (string * list value)
}.

Definition labels (f : frame) : list string := map fst (cols f).

Fixpoint find_col (name : string) (cs : list (string * list value))
  : option (list value) :=
  match cs with
  | [] => None
  | (l, vs) :: cs' => if decide (l = name) then Some vs else find_col name cs'
  end.

(** [f[name]]: the column, or a key error. *)
Definition getitem (f : frame) (name : string) : result (list value) :=
  match find_col name (cols f) with
  | Some vs => Ok vs
  | None => Raise (KeyError name)
  end.

(** [f[name] = vs] on an existing or a new column. *)
Fixpoint set_col (name : string) (vs : list value) (cs : list (string * list value))
  : list (string * list value) :=
  match cs with
  | [] => [(name, vs)]
  | (l, ws) :: cs' =>
      if decide (l = name) then (l, vs) :: cs' else (l, ws) :: set_col name vs cs'
  end.

Definition setitem (f : frame) (name : string) (vs : list value) : frame :=
  Frame (index f) (set_col name vs (cols f)).

(** Keep the positions where the mask holds. *)
Fixpoint select {A} (mask : list bool) (xs : list A) : list A :=
  match mask, xs with
  | b :: mask', x :: xs' => if b then x :: select mask' xs' else select mask' xs'
  | _, _ => []
  end.

(** [f[mask]] *)
Definition take_rows (mask : list bool) (f : frame) : frame :=
  Frame (select mask (index f))
        (map (fun c => (fst c, select mask (snd c))) (cols f)).

(** Identifiers proper: integers and text.  Among these, two values are
    equal in Python exactly when they are the same value. *)
Definition identifier (v : value) : bool :=
  match v with VInt _ | VStr _ => true | _ => false end.

(** [s.isin(ids)], for identifiers proper: membership by sameness of value.
    (Python also takes [True] for 1 and [False] for 0: where a property
    depends on which values count as members, it is stated for identifiers
    proper.) *)
Definition isin (vs ids : list value) : list bool :=
  map (fun v => bool_decide (v ∈ ids)) vs.

(** [a == b] as a comparison of a cell with a scalar answers it: nothing
    equals a null or a missing value, not even another one; a boolean equals
    the integer 0 or 1. *)
Definition py_eq (a b : value) : bool :=
  match a, b with
  | VNull, _ | _, VNull | VNaN, _ | _, VNaN => false
  | VBool p, VInt z | VInt z, VBool p => z =? (if p then 1 else 0)
  | _, _ => bool_decide (a = b)
  end.

(** [s == x], elementwise. *)
Definition eq_mask (vs : list value) (x : value) : list bool :=
  map (fun v => py_eq v x) vs.

(** How Python prints a list of plain labels. *)
Definition list_repr (names : list string) : string :=
  "[" ++ String.concat ", " (map (fun n => "'" ++ n ++ "'") names) ++ "]".

(** [f.drop(names, axis=1)]: every name must label a column; the key error
    carries the message that lists the names that do not. *)
Definition drop_cols (names : list string) (f : frame) : result frame :=
  match filter (fun n => n ∉ labels f) names with
  | [] => Ok (Frame (index f) (filter (fun c => fst c ∉ names) (cols f)))
  | missing => Raise (KeyError (list_repr missing ++ " not found in axis"))
  end.

(** [f.rename(mapping, axis=1)] *)
Definition rename_label (mapping : list (string * string)) (l : string) : string :=
  match find (fun p => bool_decide (fst p = l)) mapping with
  | Some p => snd p
  | None => l
  end.

Definition rename_cols (mapping : list (string * string)) (f : frame) : frame :=
  Frame (index f) (map (fun c => (rename_label mapping (fst c), snd c)) (cols f)).

(** ** Records and [pd.json_normalize] *)

(** A row of the table as the client returns it: a dict, keys in order. *)
Definition record : Type := list (string * value).

Fixpoint field (k : string) (r : record) : option value :=
  match r with
  | [] => None
  | (k', v) :: r' => if decide (k' = k) then Some v else field k r'
  end.

(** The members of a list in order of first appearance, those of [seen]
    left out. *)
Fixpoint first_seen {A} `{EqDecision A} (seen ks : list A) : list A :=
  match ks with
  | [] => []
  | k :: ks' =>
      if decide (k ∈ seen) then first_seen seen ks'
      else k :: first_seen (k :: seen) ks'
  end.

Definition all_keys (rows : list record) : list string :=
  first_seen [] (concat (map (map fst) rows)).

Definition range_index (n : nat) : list Z := map Z.of_nat (seq 0 n).

(** [pd.json_normalize(rows)] on flat records: no rows give the empty frame,
    otherwise one column per key, NaN where a record lacks the key.  The
    cells are kept as the records have them; the dtype pandas gives the
    column matters to the script in [astype(int)] only, and is inferred
    there.  (A column in which integers meet a null or a missing cell is
    float64 in pandas: what is said of the cells of a column other than
    [volume] is said of columns without such gaps.) *)
Definition json_normalize (rows : list record) : frame :=
  match rows with
  | [] => Frame [] []
  | _ :: _ =>
      Frame (range_index (length rows))
            (map (fun k => (k, map (fun r => default VNaN (field k r)) rows))
                 (all_keys rows))
  end.

(** [s.unique()]: values in order of first appearance, for identifiers
    proper (see [isin]). *)
Definition unique (vs : list value) : list value := first_seen [] vs.

(** ** What the libraries exchange with the script *)

(** A matplotlib figure, as far as [plot_volume] configures it. *)
Record line2d : Type := Line2D {
  l_label : value;
  l_x : list value;
  l_y : list value
}.

Record figure : Type := Figure {
  fig_lines : list line2d;
  fig_max_xticks : option Z;
  fig_legend : option string;
  fig_autofmt_xdate : bool
}.

(** The [StatsForecast] object of [create_sf_object]. *)
Record stats_forecast : Type := StatsForecast {
  sf_df : frame;
  sf_models : list string;
  sf_freq : string;
  sf_n_jobs : Z
}.

(** The frame [sf.forecast] returns: one row per series and future period,
    labelled by the series identifier.  Its cells (dates, predicted numbers)
    are carried as the text [to_csv] writes for them. *)
Record forecast_frame : Type := ForecastFrame {
  f_index_name : string;
  f_index : list value;
  f_cols : list (string * list string)
}.

(** What the script asks of Streamlit, the database and StatsForecast. *)
Inductive event : Type :=
  | EvQuery (table columns : string)
  | EvTitle (text : string)
  | EvSubheader (text : string)
  | EvMultiselect (label : string) (options : list value)
  | EvPyplot (fig : figure)
  | EvExpander (label : string)
  | EvWarning (text : string)
  | EvSlider (label : string) (lo hi step : Z)
  | EvButton (label kind : string)
  | EvSpinner (text : string)
  | EvForecast (sf : stats_forecast) (h : Z)
  | EvDownload (label data file_name mime : string).

(** What the user did with the widgets in this run of the script. *)
Record session : Type := Session {
  picked : list value;
  slid : Z;
  clicked : bool
}.

(** ** The world: store, module-level [df], table, trace *)

Definition loc : Type := nat.

Record world : Type := World {
  heap : gmap nat frame;
  g_df : option loc;
  table : list record;
  trace : list event
}.

Definition M (A : Type) : Type := world -> result A * world.

Definition ret {A} (a : A) : M A := fun w => (Ok a, w).

Definition bind {A B} (m : M A) (k : A -> M B) : M B :=
  fun w => match m w with
           | (Ok a, w') => k a w'
           | (Raise e, w') => (Raise e, w')
           end.

Notation "x <- m ;; k" := (bind m (fun x => k))
  (at level 100, m at next level, right associativity).
Notation "m ;; k" := (bind m (fun _ => k))
  (at level 100, right associativity).

Definition lift {A} (r : result A) : M A := fun w => (r, w).

(** A new object of the store. *)
Definition alloc (f : frame) : M loc :=
  fun w =>
    let l := fresh (dom (heap w)) in
    (Ok l, World (<[l := f]> (heap w)) (g_df w) (table w) (trace w)).

(** The object behind a reference.  No reference of a Python program
    dangles; the model answers a dangling one with a system error. *)
Definition deref (l : loc) : M frame :=
  fun w => match heap w !! l with
           | Some f => (Ok f, w)
           | None => (Raise SystemError, w)
           end.

(** In-place change of an object. *)
Definition update (l : loc) (f : frame) : M unit :=
  fun w => (Ok tt, World (<[l := f]> (heap w)) (g_df w) (table w) (trace w)).

(** Reading and binding the module-level name [df]. *)
Definition load_df : M loc :=
  fun w => match g_df w with
           | Some l => (Ok l, w)
           | None => (Raise (NameError "df"), w)
           end.

Definition store_df (l : loc) : M unit :=
  fun w => (Ok tt, World (heap w) (Some l) (table w) (trace w)).

Definition emit (e : event) : M unit :=
  fun w => (Ok tt, World (heap w) (g_df w) (table w) (trace w ++ [e])).

(** ** The functions of main.py *)

(** [supabase.table("car_parts_monthly_sales").select("*").execute().data] *)
Definition run_query : M (list record) :=
  emit (EvQuery "car_parts_monthly_sales" "*") ;;
  fun w => (Ok (table w), w).

Definition create_dataframe : M loc :=
  rows <- run_query ;;
  df <- alloc (json_normalize rows) ;;
  f <- deref df ;;
  volume <- lift (getitem f "volume") ;;
  ints <- lift (astype_int volume) ;;
  f <- deref df ;;
  update df (setitem f "volume" ints) ;;
  ret df.

(** [df[df["parts_id"] == id]] *)
Definition rows_of (id : value) : M loc :=
  l <- load_df ;;
  f <- deref l ;;
  l' <- load_df ;;
  f' <- deref l' ;;
  parts <- lift (getitem f' "parts_id") ;;
  alloc (take_rows (eq_mask parts id) f).

(** The loop of [plot_volume]: one line per identifier. *)
Fixpoint plot_lines (ids : list value) (ax : list line2d) : M (list line2d) :=
  match ids with
  | [] => ret ax
  | id :: ids' =>
      r <- rows_of id ;;
      fx <- deref r ;;
      x <- lift (getitem fx "date") ;;
      r' <- rows_of id ;;
      fy <- deref r' ;;
      y <- lift (getitem fy "volume") ;;
      plot_lines ids' (ax ++ [Line2D id x y])
  end.

Definition plot_volume (ids : list value) : M unit :=
  ax <- plot_lines ids [] ;;
  emit (EvPyplot (Figure ax (Some 10) (Some "best") true)).

Definition statsforecast_names : list (string * string) :=
  [("parts_id", "unique_id"); ("date", "ds"); ("volume", "y")].

Definition format_dataset (ids : list value) : M loc :=
  l <- load_df ;;
  f <- deref l ;;
  l' <- load_df ;;
  f' <- deref l' ;;
  parts <- lift (getitem f' "parts_id") ;;
  model_df <- alloc (take_rows (isin parts ids) f) ;;
  m <- deref model_df ;;
  dropped <- lift (drop_cols ["id"] m) ;;
  model_df <- alloc dropped ;;
  m <- deref model_df ;;
  update model_df (rename_cols statsforecast_names m) ;;
  ret model_df.

Definition create_sf_object (model_df : loc) : M stats_forecast :=
  f <- deref model_df ;;
  ret (StatsForecast f ["CrostonOptimized"] "MS" (-1)).

(** ** [DataFrame.to_csv(header=True)] on the forecast frame *)

Module Csv.

Definition comma : ascii := ascii_of_nat 44.
Definition dquote : ascii := ascii_of_nat 34.
Definition lf : ascii := ascii_of_nat 10.

(** The characters that make the writer quote a field: the delimiter, the
    quote and those of the line terminator, a line feed here. *)
Definition special (c : ascii) : bool :=
  bool_decide (c ∈ [comma; dquote; lf]).

Fixpoint needs_quotes (s : string) : bool :=
  match s with
  | EmptyString => false
  | String c s' => special c || needs_quotes s'
  end.

(** Every quote of the field is written twice. *)
Fixpoint double_quotes (s : string) : string :=
  match s with
  | EmptyString => EmptyString
  | String c s' =>
      if bool_decide (c = dquote)
      then String dquote (String dquote (double_quotes s'))
      else String c (double_quotes s')
  end.

(** Minimal quoting of the csv writer. *)
Definition quote_field (s : string) : string :=
  if needs_quotes s
  then String dquote (double_quotes s ++ String dquote EmptyString)
  else s.

Fixpoint join_fields (fs : list string) : string :=
  match fs with
  | [] => EmptyString
  | [f] => quote_field f
  | f :: fs' => quote_field f ++ String comma (join_fields fs')
  end.

(** A record that would be written as nothing, one empty field, is written
    as a pair of quotes. *)
Definition write_row (fs : list string) : string :=
  match fs with
  | [EmptyString] => String dquote (String dquote (String lf EmptyString))
  | _ => join_fields fs ++ String lf EmptyString
  end.

Definition write (rows : list (list string)) : string :=
  fold_right (fun r acc => write_row r ++ acc) EmptyString rows.

(** How many line feeds a text has. *)
Fixpoint line_feeds (s : string) : nat :=
  match s with
  | EmptyString => 0
  | String c s' => ((if bool_decide (c = lf) then 1 else 0) + line_feeds s')%nat
  end.

(** Reading such a text back: a record ends at a line feed, a field at a
    comma; a field in quotes is taken as it stands, two quotes for one; an
    empty line is a record without fields.  [field] and [row] hold what has
    been read of the current field and record, last first. *)
Inductive reading : Type := AtStart | Bare | Quoted | AfterQuote.

Definition text_of (field : list ascii) : string :=
  string_of_list_ascii (rev field).

Fixpoint parse_from (st : reading) (field : list ascii) (row : list string)
    (rows : list (list string)) (s : string) : option (list (list string)) :=
  match s with
  | EmptyString =>
      match st, row with
      | AtStart, [] => Some (rev rows)
      | _, _ => None
      end
  | String c s' =>
      match st with
      | AtStart =>
          if bool_decide (c = dquote) then parse_from Quoted [] row rows s'
          else if bool_decide (c = comma)
          then parse_from AtStart [] (EmptyString :: row) rows s'
          else if bool_decide (c = lf)
          then parse_from AtStart [] []
                 (match row with [] => [] | _ => rev (EmptyString :: row) end :: rows) s'
          else parse_from Bare [c] row rows s'
      | Bare =>
          if bool_decide (c = comma)
          then parse_from AtStart [] (text_of field :: row) rows s'
          else if bool_decide (c = lf)
          then parse_from AtStart [] [] (rev (text_of field :: row) :: rows) s'
          else parse_from Bare (c :: field) row rows s'
      | Quoted =>
          if bool_decide (c = dquote) then parse_from AfterQuote field row rows s'
          else parse_from Quoted (c :: field) row rows s'
      | AfterQuote =>
          if bool_decide (c = dquote) then parse_from Quoted (dquote :: field) row rows s'
          else if bool_decide (c = comma)
          then parse_from AtStart [] (text_of field :: row) rows s'
          else if bool_decide (c = lf)
          then parse_from AtStart [] [] (rev (text_of field :: row) :: rows) s'
          else None
      end
  end.

Definition parse (s : string) : option (list (list string)) :=
  parse_from AtStart [] [] [] s.

End Csv.

(** How [to_csv] writes an index label. *)
Definition show_value (v : value) : string :=
  match v with
  | VNull | VNaN => ""
  | VBool true => "True"
  | VBool false => "False"
  | VInt z => DecimalString.NilZero.string_of_int (Z.to_int z)
  | VStr s => s
  end.

(** The data rows: the label, then the cell of every column. *)
Fixpoint data_rows (idx : list value) (cs : list (list string)) : list (list string) :=
  match idx with
  | [] => []
  | i :: idx' =>
      (show_value i :: map (hd "") cs) :: data_rows idx' (map (@tl string) cs)
  end.

Definition header_row (ff : forecast_frame) : list string :=
  f_index_name ff :: map fst (f_cols ff).

Definition csv_rows (ff : forecast_frame) : list (list string) :=
  header_row ff :: data_rows (f_index ff) (map snd (f_cols ff)).

Definition to_csv (ff : forecast_frame) : string := Csv.write (csv_rows ff).

(** ** The widgets *)

(** [st.multiselect] answers with offered options only. *)
Definition multiselect (options : list value) (u : session) : list value :=
  filter (fun v => v ∈ options) (picked u).

(** [st.slider(label, lo, hi)] answers within its range. *)
Definition slider (lo hi : Z) (u : session) : Z := Z.max lo (Z.min hi (slid u)).

Section Script.

(** The forecasting library: building the ensemble on the frame and
    [forecast(h=...)], which returns the forecast frame or raises. *)
Variable forecast : stats_forecast -> Z -> result forecast_frame.

(** Running the body shows the spinner of its decorator. *)
Definition make_predictions (ids : list value) (horizon : Z) : M string :=
  emit (EvSpinner "Making predictions...") ;;
  model_df <- format_dataset ids ;;
  sf <- create_sf_object model_df ;;
  emit (EvForecast sf horizon) ;;
  forecast_df <- lift (forecast sf horizon) ;;
  ret (to_csv forecast_df).

(** The body of [with st.expander("Forecast")]. *)
Definition forecast_panel (product_ids : list value) (u : session) : M unit :=
  if (Z.of_nat (length product_ids) =? 0)
  then emit (EvWarning "Select at least one product ID to forecast")
  else
    emit (EvSlider "Horizon" 1 12 1) ;;
    let horizon := slider 1 12 u in
    emit (EvButton "Forecast" "primary") ;;
    if clicked u
    then
      csv_file <- make_predictions product_ids horizon ;;
      emit (EvDownload "Download Prediction" csv_file "prediction.csv" "text/csv")
    else ret tt.

(** The [__main__] block, for one run of the script. *)
Definition main (u : session) : M unit :=
  emit (EvTitle "Forecast product demand") ;;
  d <- create_dataframe ;;
  store_df d ;;
  emit (EvSubheader "Select a product") ;;
  l <- load_df ;;
  f <- deref l ;;
  parts <- lift (getitem f "parts_id") ;;
  let options := unique parts in
  emit (EvMultiselect "Select product ID" options) ;;
  let product_ids := multiselect options u in
  plot_volume product_ids ;;
  emit (EvExpander "Forecast") ;;
  forecast_panel product_ids u.

End Script.

(** The world in which a run of the script starts: nothing bound or stored. *)
Definition fresh_world (rows : list record) : world := World ∅ None rows [].

(** ** Notions the properties are stated with *)

(** [w'] keeps every object of [w] as it was, and the bindings. *)
Definition preserves (w w' : world) : Prop :=
  (forall l f, heap w !! l = Some f -> heap w' !! l = Some f)
  /\ g_df w' = g_df w /\ table w' = table w.

(** The frame [format_dataset] computes from the frame bound to [df]. *)
Definition format_frame (d : frame) (ids : list value) : result frame :=
  match getitem d "parts_id" with
  | Ok parts =>
      match drop_cols ["id"] (take_rows (isin parts ids) d) with
      | Ok dropped => Ok (rename_cols statsforecast_names dropped)
      | Raise e => Raise e
      end
  | Raise e => Raise e
  end.

(** ** Sample data *)

(** Two months of sales of part [A], with the four fields of the table. *)
Definition sales_rows : list record :=
  [ [("id", VInt 1); ("parts_id", VStr "A"); ("date", VStr "2023-01-01");
     ("volume", VStr "5")];
    [("id", VInt 2); ("parts_id", VStr "A"); ("date", VStr "2023-02-01");
     ("volume", VStr "3")] ].

(** Sales of two parts. *)
Definition two_parts_rows : list record :=
  [ [("id", VInt 1); ("parts_id", VStr "A"); ("date", VStr "2023-01-01");
     ("volume", VInt 5)];
    [("id", VInt 2); ("parts_id", VStr "B"); ("date", VStr "2023-01-01");
     ("volume", VInt 0)];
    [("id", VInt 3); ("parts_id", VStr "A"); ("date", VStr "2023-02-01");
     ("volume", VInt 3)] ].

(** The world once the script has run [df = create_dataframe()]. *)
Definition loaded (rows : list record) : world :=
  snd ((d <- create_dataframe ;; store_df d) (fresh_world rows)).

(** Records without the field [parts_id] ... *)
Definition rows_without_parts_id : list record :=
  [ [("id", VStr "A"); ("date", VStr "2023-01-01"); ("volume", VStr "5")];
    [("id", VStr "A"); ("date", VStr "2023-02-01"); ("volume", VStr "3")] ].

(** ... and records without the field [id]. *)
Definition rows_without_id : list record :=
  [ [("parts_id", VStr "A"); ("date", VStr "2023-01-01"); ("volume", VStr "5")];
    [("parts_id", VStr "A"); ("date", VStr "2023-02-01"); ("volume", VStr "3")] ].

(** The cells of the [volume] column that [json_normalize] builds. *)
Definition volume_cells (rows : list record) : list value :=
  map (fun r => default VNaN (field "volume" r)) rows.

(** ** Which volumes convert *)

(** The text Python reads as an integer: white space, an optional sign, runs
    of digits with one underscore between two runs, white space; at most
    4300 digits. *)
Definition space_char (c : ascii) : Prop :=
  c ∈ [" "; "009"; "010"; "011"; "012"; "013"]%char.

Definition digit_char (c : ascii) : Prop :=
  c ∈ ["0"; "1"; "2"; "3"; "4"; "5"; "6"; "7"; "8"; "9"]%char.

#[global] Instance space_char_dec (c : ascii) : Decision (space_char c).
Proof. unfold space_char. apply _. Defined.

#[global] Instance digit_char_dec (c : ascii) : Decision (digit_char c).
Proof. unfold digit_char. apply _. Defined.

Definition digit_value (c : ascii) : Z := Z.of_nat (nat_of_ascii c) - 48.

Definition decimal (ds : list ascii) : Z :=
  fold_left (fun a c => 10 * a + digit_value c) ds 0.

Definition int_literal (s : string) (z : Z) : Prop :=
  exists (l sg g : list ascii) (gs : list (list ascii)) (r : list ascii) (sign : Z),
    list_ascii_of_string s
    = (l ++ sg ++ g ++ flat_map (fun g' => "_"%char :: g') gs ++ r)%list
    /\ Forall space_char l /\ Forall space_char r
    /\ (sg, sign) ∈ [([], 1); (["+"%char], 1); (["-"%char], -1)]
    /\ Forall (fun g' => g' <> [] /\ Forall digit_char g') (g :: gs)
    /\ (length (g ++ concat gs) <= 4300)%nat
    /\ z = sign * decimal (g ++ concat gs).

(** The integer a cell stands for when Python's [int] is asked: an integer
    of the int64 range itself, a boolean 0 or 1, a text the integer it
    reads as, if that is in the range. *)
Inductive cell_int : value -> Z -> Prop :=
  | cell_int_int (z : Z) : - 2 ^ 63 <= z < 2 ^ 63 -> cell_int (VInt z) z
  | cell_int_bool (b : bool) : cell_int (VBool b) (if b then 1 else 0)
  | cell_int_text (s : string) (z : Z) :
      int_literal s z -> - 2 ^ 63 <= z < 2 ^ 63 -> cell_int (VStr s) z.

(** The integers a column converts to: those its cells stand for, cell by
    cell; or, for a column of integers between 0 and 2^64 - 1 of which one
    at least is beyond int64 (a uint64 column), the cells with 2^64 taken
    off those beyond.  A column with a null or a missing cell converts to
    nothing. *)
Definition column_ints (cells ints : list value) : Prop :=
  Forall2 (fun c i => exists z, cell_int c z /\ i = VInt z) cells ints
  \/ (exists zs,
        cells = map VInt zs /\ Forall (fun z => 0 <= z < 2 ^ 64) zs
        /\ Exists (fun z => 2 ^ 63 <= z) zs
        /\ ints = map (fun z => VInt (if z <? 2 ^ 63 then z else z - 2 ^ 64)) zs).


(** The world in which [create_dataframe] stops when it raises: the
    normalised frame is stored as it was built, the query is on the trace. *)
Definition after_normalize (w : world) : world :=
  World (<[fresh (dom (heap w)) := json_normalize (table w)]> (heap w))
        (g_df w) (table w)
        (trace w ++ [EvQuery "car_parts_monthly_sales" "*"]).

(** The options the multiselect offers in a run started in [w]: the
    identifiers of the table, or none when it has no such column. *)
Definition offered (w : world) : list value :=
  match getitem (json_normalize (table w)) "parts_id" with
  | Ok parts => unique parts
  | Raise _ => []
  end.

(** The events of the forecast action: slider, button, the spinner of the
    forecast runner, the library behind it, download. *)
Definition forecast_action (e : event) : bool :=
  match e with
  | EvSlider _ _ _ _ | EvButton _ _ | EvForecast _ _ | EvDownload _ _ _ _ => true
  | EvSpinner text => bool_decide (text = "Making predictions...")
  | _ => false
  end.

Definition is_multiselect (e : event) : bool :=
  match e with EvMultiselect _ _ => true | _ => false end.

Definition empty_figure : figure := Figure [] (Some 10) (Some "best") true.

(** The world in which a run stops when [create_dataframe] raises ... *)
Definition failed_load (w : world) : world :=
  World (<[fresh (dom (heap w)) := json_normalize (table w)]> (heap w))
        (g_df w) (table w)
        (trace w ++ [EvTitle "Forecast product demand";
                     EvQuery "car_parts_monthly_sales" "*"]).

(** ... and the one in which it reaches the multiselect, [df] bound to the
    frame with the converted volumes [ints]. *)
Definition at_select (w : world) (ints : list value) : world :=
  World (<[fresh (dom (heap w)) := setitem (json_normalize (table w)) "volume" ints]>
           (<[fresh (dom (heap w)) := json_normalize (table w)]> (heap w)))
        (Some (fresh (dom (heap w)))) (table w)
        (trace w ++ [EvTitle "Forecast product demand";
                     EvQuery "car_parts_monthly_sales" "*";
                     EvSubheader "Select a product"]).

(** ** The forecasting library *)

(** A stand-in for the library, to run the script on: for every series of
    the frame, [h] rows with the same text as prediction. *)
Definition flat_forecast (sf : stats_forecast) (h : Z) : result forecast_frame :=
  match getitem (sf_df sf) "unique_id" with
  | Ok ids =>
      let idx := flat_map (fun u => repeat u (Z.to_nat h)) (unique ids) in
      Ok (ForecastFrame "unique_id" idx
            [("ds", map (fun _ => "2023-03-01") idx);
             ("CrostonOptimized", map (fun _ => "4.0") idx)])
  | Raise e => Raise e
  end.

(** The frames of the sample run: the one bound to [df] and the stand-in's
    forecast of three months for part [A]. *)
Definition sales_frame : frame :=
  Frame [0; 1]
        [("id", [VInt 1; VInt 2]); ("parts_id", [VStr "A"; VStr "A"]);
         ("date", [VStr "2023-01-01"; VStr "2023-02-01"]);
         ("volume", [VInt 5; VInt 3])].

Definition sales_forecast : forecast_frame :=
  ForecastFrame "unique_id" [VStr "A"; VStr "A"; VStr "A"]
    [("ds", ["2023-03-01"; "2023-03-01"; "2023-03-01"]);
     ("CrostonOptimized", ["4.0"; "4.0"; "4.0"])].

(** ** Further notions *)

(** Every column is as long as the index. *)
Definition rectangular (f : frame) : Prop :=
  Forall (fun c => length (snd c) = length (index f)) (cols f).

(** The column [json_normalize] builds for a key. *)
Definition key_cells (name : string) (rows : list record) : list value :=
  map (fun r => default VNaN (field name r)) rows.

(** Sales with a column the script does not know. *)
Definition regional_rows : list record :=
  [ [("id", VInt 1); ("parts_id", VStr "A"); ("date", VStr "2023-01-01");
     ("volume", VInt 5); ("region", VStr "north")];
    [("id", VInt 2); ("parts_id", VStr "B"); ("date", VStr "2023-01-01");
     ("volume", VInt 0); ("region", VStr "south")] ].

Definition regional_frame : frame :=
  Frame [0; 1]
        [("id", [VInt 1; VInt 2]); ("parts_id", [VStr "A"; VStr "B"]);
         ("date", [VStr "2023-01-01"; VStr "2023-01-01"]);
         ("volume", [VInt 5; VInt 0]);
         ("region", [VStr "north"; VStr "south"])].

Definition two_parts_frame : frame :=
  Frame [0; 1; 2]
        [("id", [VInt 1; VInt 2; VInt 3]);
         ("parts_id", [VStr "A"; VStr "B"; VStr "A"]);
         ("date", [VStr "2023-01-01"; VStr "2023-01-01"; VStr "2023-02-01"]);
         ("volume", [VInt 5; VInt 0; VInt 3])].

(** The frame built from the records without the field [parts_id]. *)
Definition literal_frame : frame :=
  Frame [0; 1]
        [("id", [VStr "A"; VStr "A"]);
         ("date", [VStr "2023-01-01"; VStr "2023-02-01"]);
         ("volume", [VInt 5; VInt 3])].


(** Sales without dates. *)
Definition undated_rows : list record :=
  [ [("id", VInt 1); ("parts_id", VStr "A"); ("volume", VInt 5)] ].

Definition undated_frame : frame :=
  Frame [0] [("id", [VInt 1]); ("parts_id", [VStr "A"]); ("volume", [VInt 5])].

(** A library that finds the history too short. *)
Definition failing_forecast (sf : stats_forecast) (h : Z) : result forecast_frame :=
  Raise (LibraryError "insufficient history").

(** The [StatsForecast] object the script builds on a frame. *)
Definition croston_on (m : frame) : stats_forecast :=
  StatsForecast m ["CrostonOptimized"] "MS" (-1).

(** Every event a computation adds to the trace satisfies [P], whatever the
    world and the outcome. *)
Definition emits {A} (P : event -> Prop) (m : M A) : Prop :=
  forall w, exists evs,
    trace (snd (m w)) = (trace w ++ evs)%list /\ Forall P evs.

(** The events of the forecast runner: its spinner, the call of the
    library, the download of its result. *)
Definition prediction_event (e : event) : bool :=
  match e with
  | EvForecast _ _ | EvDownload _ _ _ _ => true
  | EvSpinner text => bool_decide (text = "Making predictions...")
  | _ => false
  end.

(** What a call of the library in a run of the script looks like: the
    horizon is the slider's, between 1 and 12; the ensemble is the one model,
    monthly, on all workers; the series of the frame are the selected
    identifiers [sel], and there is one at least. *)
Definition library_call (u : session) (sel : list value) (e : event) : Prop :=
  forall sf h, e = EvForecast sf h ->
    h = slider 1 12 u /\ 1 <= h <= 12
    /\ sf_models sf = ["CrostonOptimized"] /\ sf_freq sf = "MS" /\ sf_n_jobs sf = -1
    /\ exists us, getitem (sf_df sf) "unique_id" = Ok us
                  /\ us <> [] /\ forall v, v ∈ us <-> v ∈ sel.

(** The options a multiselect event carries are [opts]. *)
Definition offers (opts : list value) (e : event) : Prop :=
  forall label options, e = EvMultiselect label options ->
    label = "Select product ID" /\ options = opts.

(** A call of the library made by the forecast panel on the frame [d] bound
    to [df]: the slider's horizon, on the formatted frame. *)
Definition panel_call (u : session) (d : frame) (sel : list value) (e : event) : Prop :=
  forall sf h, e = EvForecast sf h ->
    h = slider 1 12 u /\ sel <> []
    /\ exists m, format_frame d sel = Ok m /\ sf = croston_on m.

(** ** Decimal text *)

(** The number a run of decimal digits stands for, read from the left
    starting from [acc]. *)
Fixpoint uint_value (d : Decimal.uint) (acc : Z) : Z :=
  match d with
  | Decimal.Nil => acc
  | Decimal.D0 d' => uint_value d' (10 * acc + 0)
  | Decimal.D1 d' => uint_value d' (10 * acc + 1)
  | Decimal.D2 d' => uint_value d' (10 * acc + 2)
  | Decimal.D3 d' => uint_value d' (10 * acc + 3)
  | Decimal.D4 d' => uint_value d' (10 * acc + 4)
  | Decimal.D5 d' => uint_value d' (10 * acc + 5)
  | Decimal.D6 d' => uint_value d' (10 * acc + 6)
  | Decimal.D7 d' => uint_value d' (10 * acc + 7)
  | Decimal.D8 d' => uint_value d' (10 * acc + 8)
  | Decimal.D9 d' => uint_value d' (10 * acc + 9)
  end.

(** The characters of the decimal text of a number. *)
Definition uint_chars (d : Decimal.uint) : list ascii :=
  list_ascii_of_string (NilEmpty.string_of_uint d).

(** ** Reading CSV text *)



(** * Properties *)

(** ** Sample evaluations *)

Example int_of_string_plain : PyInt.int_of_string "5" = Some 5.
Proof. reflexivity. Qed.

Example int_of_string_grouped : PyInt.int_of_string " +1_000 " = Some 1000.
Proof. reflexivity. Qed.

Example int_of_string_fraction : PyInt.int_of_string "5.5" = None.
Proof. reflexivity. Qed.

Example int_of_string_double_underscore : PyInt.int_of_string "1__0" = None.
Proof. reflexivity. Qed.

Example int_of_string_separator :
  PyInt.int_of_string (String (ascii_of_nat 28) "12") = None.
Proof. reflexivity. Qed.

Example to_int64_too_large : to_int64 (VStr "9223372036854775808") = Raise OverflowError.
Proof. reflexivity. Qed.

Example astype_int_unsigned : astype_int [VInt 5; VInt (2 ^ 63)] = Ok [VInt 5; VInt (- 2 ^ 63)].
Proof. reflexivity. Qed.

Example astype_int_signed_and_large :
  astype_int [VInt (-1); VInt (2 ^ 63)] = Raise OverflowError.
Proof. reflexivity. Qed.

Example astype_int_null_among_integers : astype_int [VInt 1; VNull] = Raise ValueError.
Proof. reflexivity. Qed.

Example astype_int_null_among_text : astype_int [VNull; VStr "1"] = Raise TypeError.
Proof. reflexivity. Qed.

Example astype_int_booleans : astype_int [VBool true; VBool false] = Ok [VInt 1; VInt 0].
Proof. reflexivity. Qed.

Example eq_mask_null :
  eq_mask [VNull; VInt 1; VBool true; VStr "1"] VNull = [false; false; false; false].
Proof. reflexivity. Qed.

Example eq_mask_one :
  eq_mask [VNull; VInt 1; VBool true; VStr "1"] (VInt 1) = [false; true; true; false].
Proof. reflexivity. Qed.

Example write_empty_field :
  Csv.write [[EmptyString]]
  = String Csv.dquote (String Csv.dquote (String Csv.lf EmptyString)).
Proof. reflexivity. Qed.

Example parse_quoted_comma :
  Csv.parse (Csv.write [["a,b"; EmptyString]; ["c"; "d"]])
  = Some [["a,b"; EmptyString]; ["c"; "d"]].
Proof. reflexivity. Qed.

Example format_dataset_without_id :
  fst (format_dataset [VStr "A"] (loaded rows_without_id))
  = Raise (KeyError "['id'] not found in axis").
Proof. vm_compute. reflexivity. Qed.

Example json_normalize_missing_key :
  json_normalize [[("id", VInt 1); ("volume", VInt 2)]; [("id", VInt 2)]]
  = Frame [0; 1] [("id", [VInt 1; VInt 2]); ("volume", [VInt 2; VNaN])].
Proof. reflexivity. Qed.

Example to_csv_sales_forecast :
  to_csv sales_forecast = "unique_id,ds,CrostonOptimized
A,2023-03-01,4.0
A,2023-03-01,4.0
A,2023-03-01,4.0
".
Proof. reflexivity. Qed.

(** ** The store *)

Lemma fresh_lookup (h : gmap nat frame) : h !! fresh (dom h) = None.
Proof. apply not_elem_of_dom, is_fresh. Qed.

Lemma fresh_ne (h : gmap nat frame) (l : loc) (f : frame) :
  h !! l = Some f -> fresh (dom h) <> l.
Proof. intros Hl Heq. rewrite <- Heq, fresh_lookup in Hl. discriminate. Qed.


Lemma preserves_refl w : preserves w w.
Proof. repeat split; auto. Qed.

(** ** [format_dataset], step by step *)


Lemma format_dataset_unbound ids w :
  g_df w = None -> format_dataset ids w = (Raise (NameError "df"), w).
Proof. intros H. unfold format_dataset, bind, load_df. now rewrite H. Qed.

Lemma format_dataset_run ids w l d :
  g_df w = Some l -> heap w !! l = Some d ->
  match getitem d "parts_id" with
  | Raise e => format_dataset ids w = (Raise e, w)
  | Ok parts =>
      let t := take_rows (isin parts ids) d in
      let h1 := <[fresh (dom (heap w)) := t]> (heap w) in
      match drop_cols ["id"] t with
      | Raise e =>
          format_dataset ids w = (Raise e, World h1 (g_df w) (table w) (trace w))
      | Ok dropped =>
          format_dataset ids w =
            (Ok (fresh (dom h1)),
             World (<[fresh (dom h1) := rename_cols statsforecast_names dropped]>
                      (<[fresh (dom h1) := dropped]> h1))
                   (g_df w) (table w) (trace w))
      end
  end.
Proof.
  intros Hg Hl. unfold format_dataset, bind, load_df, deref, lift, alloc, update, ret.
  rewrite Hg. cbn [heap g_df table trace]. rewrite Hl, Hg.
  cbn [heap g_df table trace]. rewrite Hl.
  destruct (getitem d "parts_id") as [parts|e]; [|reflexivity].
  cbn [heap g_df table trace]. rewrite lookup_insert_eq.
  destruct (drop_cols ["id"] _) as [dropped|e]; [|now rewrite ?Hg].
  cbn [heap g_df table trace]. now rewrite lookup_insert_eq, ?Hg.
Qed.

(** The outcome of [format_dataset] in terms of [format_frame]. *)
Lemma format_dataset_ok ids w l d m :
  g_df w = Some l -> heap w !! l = Some d -> format_frame d ids = Ok m ->
  exists r w', format_dataset ids w = (Ok r, w')
               /\ heap w' !! r = Some m /\ preserves w w' /\ trace w' = trace w.
Proof.
  intros Hg Hl Hm. pose proof (format_dataset_run ids w l d Hg Hl) as Hrun.
  unfold format_frame in Hm.
  destruct (getitem d "parts_id") as [parts|e]; [|discriminate].
  cbv zeta in Hrun.
  destruct (drop_cols ["id"] _) as [dropped|e]; [|discriminate].
  injection Hm as <-. eexists _, _. split; [exact Hrun|].
  cbn [heap g_df table trace]. split; [apply lookup_insert_eq|].
  split; [|reflexivity]. repeat split; cbn [heap g_df table trace]; auto.
  intros l0 f0 Hl0.
  assert (Hne1 : fresh (dom (heap w)) <> l0) by (eapply fresh_ne; eassumption).
  assert (Hl1 : <[fresh (dom (heap w)) := take_rows (isin parts ids) d]> (heap w) !! l0
                = Some f0) by (rewrite lookup_insert_ne; assumption).
  pose proof (fresh_ne _ _ _ Hl1) as Hne2.
  rewrite 2!lookup_insert_ne by assumption. exact Hl1.
Qed.

Lemma format_dataset_preserves ids w l d :
  g_df w = Some l -> heap w !! l = Some d ->
  preserves w (snd (format_dataset ids w)).
Proof.
  intros Hg Hl. pose proof (format_dataset_run ids w l d Hg Hl) as Hrun.
  destruct (getitem d "parts_id") as [parts|e].
  2:{ rewrite Hrun. apply preserves_refl. }
  cbv zeta in Hrun.
  assert (Hstep : forall l0 f0, heap w !! l0 = Some f0 ->
            <[fresh (dom (heap w)) := take_rows (isin parts ids) d]> (heap w) !! l0
            = Some f0).
  { intros l0 f0 Hl0. rewrite lookup_insert_ne; [assumption|].
    eapply fresh_ne; eassumption. }
  destruct (drop_cols ["id"] _) as [dropped|e]; rewrite Hrun;
    repeat split; cbn [snd heap g_df table trace]; auto.
  intros l0 f0 Hl0. pose proof (Hstep _ _ Hl0) as Hl1.
  pose proof (fresh_ne _ _ _ Hl1) as Hne2.
  rewrite 2!lookup_insert_ne by assumption. exact Hl1.
Qed.

(** ** Columns under the frame operations *)

Lemma elem_of_select_map (P : value -> bool) (vs : list value) (v : value) :
  v ∈ select (map P vs) vs <-> v ∈ vs /\ P v = true.
Proof.
  induction vs as [|x vs IH]; simpl.
  - rewrite elem_of_nil. tauto.
  - destruct (P x) eqn:Hx; rewrite ?elem_of_cons, IH; split.
    + intros [->|[? ?]]; auto.
    + intros [[->|?] ?]; auto.
    + intros [? ?]; auto.
    + intros [[->|?] ?]; [congruence | auto].
Qed.

Lemma find_col_Some_label name cs :
  is_Some (find_col name cs) <-> name ∈ map fst cs.
Proof.
  induction cs as [|[l vs] cs IH]; simpl.
  - rewrite elem_of_nil. split; [intros [? ?]; discriminate | tauto].
  - rewrite elem_of_cons. destruct (decide (l = name)) as [->|Hne].
    + split; eauto.
    + rewrite IH. split; [auto | intros [?|?]; congruence || assumption].
Qed.

Lemma getitem_ok_label f name :
  name ∈ labels f -> exists vs, getitem f name = Ok vs.
Proof.
  intros H. apply find_col_Some_label in H as [vs Hvs].
  exists vs. unfold getitem. now rewrite Hvs.
Qed.

Lemma labels_take_rows mask f : labels (take_rows mask f) = labels f.
Proof.
  unfold labels, take_rows. simpl. rewrite map_map. reflexivity.
Qed.

Lemma find_col_take_rows mask name cs :
  find_col name (map (fun c => (fst c, select mask (snd c))) cs)
  = option_map (select mask) (find_col name cs).
Proof.
  induction cs as [|[l vs] cs IH]; simpl; [reflexivity|].
  destruct (decide (l = name)); [reflexivity | exact IH].
Qed.

Lemma drop_cols_id f :
  drop_cols ["id"] f =
    if decide ("id" ∈ labels f)
    then Ok (Frame (index f) (filter (fun c => fst c ∉ ["id"]) (cols f)))
    else Raise (KeyError "['id'] not found in axis").
Proof.
  unfold drop_cols. rewrite filter_cons, filter_nil.
  destruct (decide ("id" ∈ labels f)) as [Hin|Hnin].
  - rewrite decide_False by tauto. reflexivity.
  - rewrite decide_True by assumption. reflexivity.
Qed.

Lemma rename_label_id l : rename_label statsforecast_names l = "id" -> l = "id".
Proof.
  unfold rename_label, statsforecast_names. simpl.
  repeat (case_bool_decide; simpl; [discriminate|]). auto.
Qed.

Lemma rename_label_unique_id l :
  rename_label statsforecast_names l = "unique_id" ->
  l = "parts_id" \/ l = "unique_id".
Proof.
  unfold rename_label, statsforecast_names. simpl.
  case_bool_decide; simpl; [auto|].
  repeat (case_bool_decide; simpl; [discriminate|]). auto.
Qed.

(** After the drop and the renaming, the column called [unique_id] is the
    one that was called [parts_id]. *)
Lemma find_col_formatted cs :
  "unique_id" ∉ map fst cs ->
  find_col "unique_id"
    (map (fun c => (rename_label statsforecast_names (fst c), snd c))
         (filter (fun c => fst c ∉ ["id"]) cs))
  = find_col "parts_id" cs.
Proof.
  induction cs as [|[l vs] cs IH]; simpl; [reflexivity|].
  rewrite elem_of_cons. intros Hnot. rewrite filter_cons. simpl.
  destruct (decide (l ∉ ["id"])) as [Hl|Hl].
  - simpl. destruct (decide (l = "parts_id")) as [->|Hne].
    + reflexivity.
    + destruct (decide (rename_label statsforecast_names l = "unique_id")) as [Hr|Hr].
      * apply rename_label_unique_id in Hr as [?|?]; [congruence|].
        exfalso. apply Hnot. left. congruence.
      * apply IH. tauto.
  - destruct (decide (l = "parts_id")) as [->|Hne].
    + exfalso. apply Hl. rewrite list_elem_of_singleton. discriminate.
    + apply IH. tauto.
Qed.

Lemma labels_formatted_no_id (cs : list (string * list value)) :
  "id" ∉ map fst
    (map (fun c => (rename_label statsforecast_names (fst c), snd c))
         (filter (fun c => fst c ∉ ["id"]) cs)).
Proof.
  induction cs as [|[l vs] cs IH]; simpl; [apply not_elem_of_nil|].
  rewrite filter_cons. simpl. destruct (decide (l ∉ ["id"])) as [Hl|Hl]; [|exact IH].
  simpl. rewrite elem_of_cons. intros [Heq|Hin]; [|contradiction].
  symmetry in Heq. apply rename_label_id in Heq. subst l.
  apply Hl. now apply list_elem_of_singleton.
Qed.

(** [format_frame] succeeds exactly on frames with the two columns it names. *)
Lemma format_frame_ok d ids :
  "parts_id" ∈ labels d -> "id" ∈ labels d ->
  exists parts,
    getitem d "parts_id" = Ok parts
    /\ format_frame d ids =
         Ok (rename_cols statsforecast_names
               (Frame (select (isin parts ids) (index d))
                      (filter (fun c => fst c ∉ ["id"])
                              (cols (take_rows (isin parts ids) d))))).
Proof.
  intros Hp Hi. destruct (getitem_ok_label d "parts_id" Hp) as [parts Hparts].
  exists parts. split; [assumption|]. unfold format_frame. rewrite Hparts.
  rewrite drop_cols_id, labels_take_rows. rewrite decide_True by assumption.
  reflexivity.
Qed.

Lemma filter_take_rows mask cs :
  filter (fun c : string * list value => fst c ∉ ["id"])
         (map (fun c => (fst c, select mask (snd c))) cs)
  = map (fun c => (fst c, select mask (snd c)))
        (filter (fun c => fst c ∉ ["id"]) cs).
Proof.
  induction cs as [|[l vs] cs IH]; simpl; [reflexivity|].
  rewrite !filter_cons. simpl. destruct (decide (l ∉ ["id"])); simpl; now rewrite IH.
Qed.

(** The identifier column of the formatted frame. *)
Lemma format_frame_unique_id d ids parts m :
  getitem d "parts_id" = Ok parts -> "unique_id" ∉ labels d ->
  format_frame d ids = Ok m ->
  getitem m "unique_id" = Ok (select (isin parts ids) parts) /\ "id" ∉ labels m.
Proof.
  intros Hparts Hu Hm. unfold format_frame in Hm. rewrite Hparts in Hm.
  rewrite drop_cols_id in Hm. destruct (decide _) as [Hid|Hid]; [|discriminate].
  injection Hm as <-. split.
  - unfold getitem, rename_cols. cbn [cols index take_rows].
    rewrite filter_take_rows.
    assert (Hu' : "unique_id" ∉ map fst
                (map (fun c : string * list value =>
                        (fst c, select (isin parts ids) (snd c))) (cols d))).
    { rewrite map_map. exact Hu. }
    rewrite <- filter_take_rows, find_col_formatted by exact Hu'.
    rewrite find_col_take_rows. unfold getitem in Hparts.
    destruct (find_col "parts_id" (cols d)); [|discriminate].
    now injection Hparts as ->.
  - unfold labels, rename_cols. cbn [cols]. apply labels_formatted_no_id.
Qed.

(** ** The dataset formatter *)

(** C1 (as amended): when [df] is bound to a frame with the columns
    [parts_id] and [id] (and none called [unique_id] yet), [format_dataset]
    returns a frame whose identifier column holds exactly the requested
    identifiers that occur in the sales table, and which has no column
    [id].  Identifiers are integers or text, those asked for and those of
    the table. *)
Theorem format_dataset_identifiers (w : world) (l : loc) (d : frame)
    (ids parts : list value) :
  g_df w = Some l -> heap w !! l = Some d ->
  getitem d "parts_id" = Ok parts -> "id" ∈ labels d -> "unique_id" ∉ labels d ->
  Forall (fun v => identifier v = true) ids ->
  Forall (fun v => identifier v = true) parts ->
  exists r w' m us,
    format_dataset ids w = (Ok r, w') /\ heap w' !! r = Some m
    /\ getitem m "unique_id" = Ok us
    /\ (forall v, v ∈ us <-> v ∈ ids /\ v ∈ parts)
    /\ "id" ∉ labels m.
Proof.
  intros Hg Hl Hparts Hi Hu _ _.
  assert (Hp : "parts_id" ∈ labels d).
  { apply find_col_Some_label. unfold getitem in Hparts.
    destruct (find_col "parts_id" (cols d)); [eauto | discriminate]. }
  destruct (format_frame_ok d ids Hp Hi) as (parts' & Hparts' & Hm).
  assert (parts' = parts) as -> by congruence.
  destruct (format_dataset_ok ids w l d _ Hg Hl Hm) as (r & w' & Hrun & Hr & _ & _).
  destruct (format_frame_unique_id d ids parts _ Hparts Hu Hm) as [Hus Hnoid].
  eexists r, w', _, _.
  split; [exact Hrun|]. split; [exact Hr|].
  split; [exact Hus|]. split; [|exact Hnoid].
  intros v. unfold isin. rewrite elem_of_select_map, bool_decide_eq_true. tauto.
Qed.

Lemma format_dataset_identifiers_witness :
  exists r w' m us,
    format_dataset [VStr "B"; VStr "Z"] (loaded two_parts_rows) = (Ok r, w')
    /\ heap w' !! r = Some m
    /\ getitem m "unique_id" = Ok us
    /\ (forall v, v ∈ us <-> v ∈ [VStr "B"; VStr "Z"] /\ v ∈ [VStr "A"; VStr "B"; VStr "A"])
    /\ "id" ∉ labels m.
Proof.
  apply (format_dataset_identifiers (loaded two_parts_rows) 0%nat two_parts_frame).
  - reflexivity.
  - vm_compute. reflexivity.
  - reflexivity.
  - apply (bool_decide_unpack _). vm_compute. exact I.
  - apply (bool_decide_unpack _). vm_compute. exact I.
  - repeat constructor.
  - repeat constructor.
Defined.

(** C1, as stated, fails: a requested identifier without rows in the sales
    table is not among the identifiers of the returned frame. *)
Lemma format_dataset_omits_unknown_identifier :
  exists r w' m us,
    format_dataset [VStr "Z"] (loaded sales_rows) = (Ok r, w')
    /\ heap w' !! r = Some m
    /\ getitem m "unique_id" = Ok us
    /\ ~ (forall v, v ∈ us <-> v ∈ [VStr "Z"]).
Proof.
  eexists _, _, _, _. split; [vm_compute; reflexivity|].
  split; [vm_compute; reflexivity|]. split; [vm_compute; reflexivity|].
  intros H. destruct (H (VStr "Z")) as [_ H2].
  specialize (H2 ltac:(apply list_elem_of_singleton; reflexivity)).
  now apply elem_of_nil in H2.
Qed.

Lemma format_dataset_dangling ids w l :
  g_df w = Some l -> heap w !! l = None ->
  format_dataset ids w = (Raise SystemError, w).
Proof.
  intros Hg Hl. unfold format_dataset, bind, load_df, deref.
  rewrite Hg. cbn [heap]. now rewrite Hl.
Qed.

Lemma isin_ext (vs ids1 ids2 : list value) :
  (forall v, v ∈ ids1 <-> v ∈ ids2) -> isin vs ids1 = isin vs ids2.
Proof.
  intros H. unfold isin. apply map_ext. intros v.
  apply bool_decide_ext, H.
Qed.

(** C8: [format_dataset] leaves the frame bound to the module-level [df] as
    it was, and [df] bound to it, whatever identifiers are asked for: the
    filter and the drop make new frames and the renaming in place changes the
    newest of them. *)
Theorem format_dataset_leaves_df (w : world) (l : loc) (d : frame) (ids : list value) :
  g_df w = Some l -> heap w !! l = Some d ->
  g_df (snd (format_dataset ids w)) = Some l
  /\ heap (snd (format_dataset ids w)) !! l = Some d.
Proof.
  intros Hg Hl. destruct (format_dataset_preserves ids w l d Hg Hl) as (Hh & Hdf & _).
  split; [congruence | auto].
Qed.

Lemma format_dataset_leaves_df_witness :
  g_df (snd (format_dataset [VStr "A"] (loaded sales_rows))) = Some 0%nat
  /\ heap (snd (format_dataset [VStr "A"] (loaded sales_rows))) !! 0%nat
     = Some (Frame [0; 1]
               [("id", [VInt 1; VInt 2]); ("parts_id", [VStr "A"; VStr "A"]);
                ("date", [VStr "2023-01-01"; VStr "2023-02-01"]);
                ("volume", [VInt 5; VInt 3])]).
Proof.
  apply (format_dataset_leaves_df (loaded sales_rows) 0%nat).
  - reflexivity.
  - vm_compute. reflexivity.
Defined.

(** C9: two identifier lists with the same members (in any order, repeated
    or not) make [format_dataset] do the same thing; where [df] is bound to
    a frame with the columns [parts_id] and [id], both calls return the same
    frame. *)
Theorem format_dataset_same_set (w : world) (ids1 ids2 : list value) :
  (forall v, v ∈ ids1 <-> v ∈ ids2) ->
  format_dataset ids1 w = format_dataset ids2 w
  /\ (forall l d, g_df w = Some l -> heap w !! l = Some d ->
        "parts_id" ∈ labels d -> "id" ∈ labels d ->
        exists r w' m, format_dataset ids1 w = (Ok r, w')
                       /\ format_dataset ids2 w = (Ok r, w')
                       /\ heap w' !! r = Some m).
Proof.
  intros Hset.
  assert (Heq : format_dataset ids1 w = format_dataset ids2 w).
  { destruct (g_df w) as [l|] eqn:Hg.
    2:{ now rewrite !format_dataset_unbound. }
    destruct (heap w !! l) as [d|] eqn:Hl.
    2:{ now rewrite !(format_dataset_dangling _ w l). }
    pose proof (format_dataset_run ids1 w l d Hg Hl) as H1.
    pose proof (format_dataset_run ids2 w l d Hg Hl) as H2.
    destruct (getitem d "parts_id") as [parts|e]; [|congruence].
    cbv zeta in H1, H2. rewrite (isin_ext parts ids1 ids2 Hset) in H1.
    destruct (drop_cols ["id"] _); congruence. }
  split; [exact Heq|]. intros l d Hg Hl Hp Hi.
  destruct (format_frame_ok d ids1 Hp Hi) as (parts & _ & Hm).
  destruct (format_dataset_ok ids1 w l d _ Hg Hl Hm) as (r & w' & Hrun & Hr & _).
  exists r, w'. eexists. split; [exact Hrun|]. split; [now rewrite <- Heq | exact Hr].
Qed.

Lemma format_dataset_same_set_witness :
  format_dataset [VStr "A"; VStr "B"; VStr "A"] (loaded two_parts_rows)
  = format_dataset [VStr "B"; VStr "A"] (loaded two_parts_rows)
  /\ (forall l d, g_df (loaded two_parts_rows) = Some l ->
        heap (loaded two_parts_rows) !! l = Some d ->
        "parts_id" ∈ labels d -> "id" ∈ labels d ->
        exists r w' m,
          format_dataset [VStr "A"; VStr "B"; VStr "A"] (loaded two_parts_rows) = (Ok r, w')
          /\ format_dataset [VStr "B"; VStr "A"] (loaded two_parts_rows) = (Ok r, w')
          /\ heap w' !! r = Some m).
Proof.
  apply (format_dataset_same_set (loaded two_parts_rows)).
  intros v. rewrite !elem_of_cons, !elem_of_nil. simpl. tauto.
Defined.

(** ** The module-level name [df] *)

Lemma rows_of_unbound id w :
  g_df w = None -> rows_of id w = (Raise (NameError "df"), w).
Proof. intros H. unfold rows_of, bind, load_df. now rewrite H. Qed.

(** C10 (as amended): while [df] is unbound, [format_dataset] raises the
    name error for every argument and [plot_volume] raises it for every
    non-empty list of identifiers; for the empty list [plot_volume] never
    reads [df] and shows an empty chart. *)
Theorem unbound_df_name_error (w : world) :
  g_df w = None ->
  (forall ids, format_dataset ids w = (Raise (NameError "df"), w))
  /\ (forall id ids, plot_volume (id :: ids) w = (Raise (NameError "df"), w))
  /\ plot_volume [] w =
       (Ok tt, World (heap w) None (table w)
                 (trace w ++ [EvPyplot (Figure [] (Some 10) (Some "best") true)])).
Proof.
  intros Hg. split; [|split].
  - intros ids. now apply format_dataset_unbound.
  - intros id ids. unfold plot_volume, bind. cbn [plot_lines]. unfold bind.
    now rewrite rows_of_unbound.
  - unfold plot_volume, bind, emit. cbn. now rewrite Hg.
Qed.

Lemma unbound_df_name_error_witness :
  (forall ids, format_dataset ids (fresh_world sales_rows)
               = (Raise (NameError "df"), fresh_world sales_rows))
  /\ (forall id ids, plot_volume (id :: ids) (fresh_world sales_rows)
                     = (Raise (NameError "df"), fresh_world sales_rows))
  /\ plot_volume [] (fresh_world sales_rows) =
       (Ok tt, World (heap (fresh_world sales_rows)) None (table (fresh_world sales_rows))
                 (trace (fresh_world sales_rows)
                  ++ [EvPyplot (Figure [] (Some 10) (Some "best") true)])).
Proof. apply (unbound_df_name_error (fresh_world sales_rows)). reflexivity. Defined.

(** C10, as stated, fails: with [df] unbound, [plot_volume] on the empty
    list returns instead of raising the name error. *)
Lemma plot_volume_empty_returns_unbound :
  g_df (fresh_world sales_rows) = None
  /\ fst (plot_volume [] (fresh_world sales_rows)) = Ok tt
  /\ fst (plot_volume [] (fresh_world sales_rows)) <> Raise (NameError "df").
Proof. split; [reflexivity|]. split; [reflexivity|discriminate]. Qed.

(** ** The integer literals of Python *)

(** A property of characters that holds of the 256 of them holds of all. *)
Lemma ascii_cases (P : ascii -> bool) :
  forallb P (map ascii_of_nat (seq 0 256)) = true -> forall c, P c = true.
Proof.
  intros H c. rewrite forallb_forall in H. apply H.
  rewrite <- (ascii_nat_embedding c). apply in_map, in_seq.
  pose proof (nat_ascii_bounded c). lia.
Qed.

Lemma is_space_spec (c : ascii) : PyInt.is_space c = true <-> space_char c.
Proof.
  assert (H : PyInt.is_space c = bool_decide (space_char c)).
  { pose proof (ascii_cases (fun c0 =>
      eqb (PyInt.is_space c0) (bool_decide (space_char c0)))) as Hall.
    apply eqb_prop, Hall. vm_compute. reflexivity. }
  rewrite H. apply bool_decide_eq_true.
Qed.

Lemma digit_of_spec (c : ascii) :
  PyInt.digit_of c = if bool_decide (digit_char c) then Some (digit_value c) else None.
Proof.
  pose proof (ascii_cases (fun c =>
    bool_decide (PyInt.digit_of c
      = if bool_decide (digit_char c) then Some (digit_value c) else None))) as H.
  apply (bool_decide_unpack _), Is_true_true, (H ltac:(vm_compute; reflexivity) c).
Qed.

Lemma digit_of_digit (c : ascii) :
  digit_char c -> PyInt.digit_of c = Some (digit_value c).
Proof. intros H. rewrite digit_of_spec. now rewrite bool_decide_eq_true_2. Qed.

Lemma is_underscore_spec (c : ascii) :
  PyInt.is_underscore c = bool_decide (c = "_"%char).
Proof.
  pose proof (ascii_cases (fun c =>
    eqb (PyInt.is_underscore c) (bool_decide (c = "_"%char)))) as H.
  apply eqb_prop, H. vm_compute. reflexivity.
Qed.

(** Sorting the characters: a digit is no white space, no sign and no
    underscore; white space is no digit, no sign and no underscore. *)
Lemma digit_char_other (c : ascii) :
  digit_char c ->
  PyInt.is_space c = false /\ (nat_of_ascii c =? 45)%nat = false
  /\ (nat_of_ascii c =? 43)%nat = false.
Proof.
  intros H0. pose proof (bool_decide_eq_true_2 (digit_char c) H0) as H.
  pose proof (ascii_cases (fun c =>
    implb (bool_decide (digit_char c))
          (negb (PyInt.is_space c) && negb (nat_of_ascii c =? 45)%nat
           && negb (nat_of_ascii c =? 43)%nat))) as Hall.
  specialize (Hall ltac:(vm_compute; reflexivity) c). cbv beta in Hall.
  rewrite H in Hall. cbn [implb] in Hall.
  apply andb_true_iff in Hall as [Hall H3]. apply andb_true_iff in Hall as [H1 H2].
  now rewrite !negb_true_iff in *.
Qed.

Lemma space_char_other (c : ascii) :
  space_char c -> PyInt.digit_of c = None /\ PyInt.is_underscore c = false.
Proof.
  intros H0. pose proof (bool_decide_eq_true_2 (space_char c) H0) as H.
  pose proof (ascii_cases (fun c =>
    implb (bool_decide (space_char c))
          (bool_decide (PyInt.digit_of c = None) && negb (PyInt.is_underscore c)))) as Hall.
  specialize (Hall ltac:(vm_compute; reflexivity) c). cbv beta in Hall.
  rewrite H in Hall. cbn [implb] in Hall.
  apply andb_true_iff in Hall as [H1 H2]. apply bool_decide_eq_true in H1.
  now rewrite negb_true_iff in H2.
Qed.

(** *** White space *)

Lemma skip_spaces_split (cs : list ascii) :
  exists l, cs = (l ++ PyInt.skip_spaces cs)%list /\ Forall space_char l.
Proof.
  induction cs as [|c cs (l & Hl & Hsp)]; [now exists []|].
  cbn [PyInt.skip_spaces]. destruct (PyInt.is_space c) eqn:Hc.
  - exists (c :: l). split; [cbn; now rewrite <- Hl|].
    constructor; [now apply is_space_spec | assumption].
  - now exists [].
Qed.

Lemma skip_spaces_app (l cs : list ascii) :
  Forall space_char l -> PyInt.skip_spaces (l ++ cs) = PyInt.skip_spaces cs.
Proof.
  induction 1 as [|c l Hc _ IH]; [reflexivity|].
  cbn. apply is_space_spec in Hc. now rewrite Hc.
Qed.

Lemma skip_spaces_all (r : list ascii) :
  PyInt.skip_spaces r = [] <-> Forall space_char r.
Proof.
  split.
  - intros H. destruct (skip_spaces_split r) as (l & Hl & Hsp).
    rewrite H, app_nil_r in Hl. now subst.
  - intros H. rewrite <- (app_nil_r r). now rewrite skip_spaces_app.
Qed.

(** *** Digits *)

Lemma scan_digits_run (g : list ascii) : forall tl acc n,
  Forall digit_char g ->
  PyInt.scan_digits (g ++ tl) acc n true
  = PyInt.scan_digits tl (fold_left (fun a c => 10 * a + digit_value c) g acc)
      (n + length g) true.
Proof.
  induction g as [|c g IH]; intros tl acc n Hg.
  - cbn. now rewrite Nat.add_0_r.
  - inversion Hg as [|? ? Hc Hg']; subst. cbn [app PyInt.scan_digits].
    rewrite (digit_of_digit c Hc), IH by assumption. cbn [fold_left length].
    now rewrite Nat.add_succ_r.
Qed.

Lemma scan_digits_first (g : list ascii) tl acc n :
  g <> [] -> Forall digit_char g ->
  PyInt.scan_digits (g ++ tl) acc n false = PyInt.scan_digits (g ++ tl) acc n true.
Proof.
  intros Hne Hg. destruct g as [|c g]; [contradiction|].
  inversion Hg as [|? ? Hc _]; subst. cbn [app PyInt.scan_digits].
  now rewrite (digit_of_digit c Hc).
Qed.

Lemma scan_digits_groups (gs : list (list ascii)) : forall r acc n,
  Forall (fun g' => g' <> [] /\ Forall digit_char g') gs -> Forall space_char r ->
  PyInt.scan_digits (flat_map (fun g' => "_"%char :: g') gs ++ r) acc n true
  = Some (fold_left (fun a c => 10 * a + digit_value c) (concat gs) acc,
          (n + length (concat gs))%nat, r).
Proof.
  induction gs as [|g gs IH]; intros r acc n Hgs Hr.
  - cbn [flat_map concat app fold_left length]. rewrite Nat.add_0_r.
    destruct Hr as [|c r Hc Hr]; [reflexivity|].
    cbn [PyInt.scan_digits]. destruct (space_char_other c Hc) as [-> ->]. reflexivity.
  - inversion Hgs as [|? ? [Hne Hg] Hgs']; subst.
    cbn [flat_map concat]. rewrite <- !app_assoc. cbn [app PyInt.scan_digits].
    change (PyInt.digit_of "_") with (@None Z).
    change (PyInt.is_underscore "_") with true. cbv iota.
    rewrite scan_digits_first, scan_digits_run, IH by assumption.
    now rewrite fold_left_app, length_app, Nat.add_assoc.
Qed.

Lemma scan_digits_sound (cs : list ascii) : forall acc n b v m rest,
  PyInt.scan_digits cs acc n b = Some (v, m, rest) ->
  exists g gs,
    cs = (g ++ flat_map (fun g' => "_"%char :: g') gs ++ rest)%list
    /\ Forall digit_char g /\ (b = false -> g <> [])
    /\ Forall (fun g' => g' <> [] /\ Forall digit_char g') gs
    /\ v = fold_left (fun a c => 10 * a + digit_value c) (g ++ concat gs) acc
    /\ m = (n + length (g ++ concat gs))%nat.
Proof.
  induction cs as [|c cs IH]; intros acc n b v m rest; cbn [PyInt.scan_digits].
  - destruct b; [|discriminate]. intros [= <- <- <-]. exists [], [].
    cbn. rewrite Nat.add_0_r. repeat split; try constructor. discriminate.
  - rewrite digit_of_spec, is_underscore_spec. case_bool_decide as Hd.
    + intros H. apply IH in H as (g & gs & -> & Hg & _ & Hgs & -> & ->).
      exists (c :: g), gs. cbn [app fold_left length]. rewrite Nat.add_succ_r.
      split; [reflexivity|]. split; [now constructor|]. split; [discriminate|].
      repeat split; assumption.
    + case_bool_decide as Hu.
      * destruct b; [|discriminate]. intros H.
        apply IH in H as (g & gs & -> & Hg & Hne & Hgs & -> & ->).
        exists [], (g :: gs). cbn [app flat_map concat]. rewrite <- app_assoc.
        subst c. split; [reflexivity|]. split; [constructor|].
        split; [discriminate|]. split; [|split; reflexivity].
        constructor; [|assumption]. split; [now apply Hne | assumption].
      * destruct b; [|discriminate]. intros [= <- <- <-]. exists [], [].
        cbn. rewrite Nat.add_0_r. repeat split; try constructor. discriminate.
Qed.

(** *** The literal as a whole *)

Lemma parse_sign_digit (c : ascii) (cs : list ascii) :
  digit_char c -> PyInt.parse_sign (c :: cs) = (1, c :: cs).
Proof.
  intros Hc. destruct (digit_char_other c Hc) as (_ & H1 & H2).
  cbn [PyInt.parse_sign]. now rewrite H1, H2.
Qed.

Lemma parse_sign_split (cs : list ascii) :
  exists sg,
    cs = (sg ++ snd (PyInt.parse_sign cs))%list
    /\ (sg, fst (PyInt.parse_sign cs)) ∈ [([], 1); (["+"%char], 1); (["-"%char], -1)].
Proof.
  destruct cs as [|c cs]; [exists []; split; [reflexivity | apply elem_of_cons; now left]|].
  cbn [PyInt.parse_sign].
  destruct (nat_of_ascii c =? 45)%nat eqn:H1; [|destruct (nat_of_ascii c =? 43)%nat eqn:H2].
  - apply Nat.eqb_eq in H1. assert (c = "-"%char) as ->.
    { rewrite <- (ascii_nat_embedding c), H1. reflexivity. }
    exists ["-"%char]. split; [reflexivity|]. apply (bool_decide_unpack _). vm_compute. exact I.
  - apply Nat.eqb_eq in H2. assert (c = "+"%char) as ->.
    { rewrite <- (ascii_nat_embedding c), H2. reflexivity. }
    exists ["+"%char]. split; [reflexivity|]. apply (bool_decide_unpack _). vm_compute. exact I.
  - exists []. split; [reflexivity|]. apply elem_of_cons. now left.
Qed.

(** [int] reads a text as [z] exactly when the text is a literal of [z]. *)
Lemma int_of_string_spec (s : string) (z : Z) :
  PyInt.int_of_string s = Some z <-> int_literal s z.
Proof.
  unfold PyInt.int_of_string, int_literal. split.
  - destruct (skip_spaces_split (list_ascii_of_string s)) as (l & Hl & Hsp).
    destruct (parse_sign_split (PyInt.skip_spaces (list_ascii_of_string s)))
      as (sg & Hsg & Hsign).
    destruct (PyInt.parse_sign _) as [sign cs]. cbn [fst snd] in *.
    destruct (PyInt.scan_digits cs 0 0 false) as [[[v m] rest]|] eqn:Hscan; [|discriminate].
    destruct (PyInt.skip_spaces rest) eqn:Hrest; [|discriminate].
    destruct (m <=? PyInt.max_str_digits)%nat eqn:Hm; [|discriminate].
    intros [= <-]. apply scan_digits_sound in Hscan as (g & gs & -> & Hg & Hne & Hgs & -> & ->).
    exists l, sg, g, gs, rest, sign. rewrite Hl at 1. rewrite Hsg at 1.
    split; [reflexivity|]. split; [assumption|].
    split; [now apply skip_spaces_all|]. split; [assumption|].
    split; [constructor; [split; [now apply Hne | assumption] | assumption]|].
    split; [|reflexivity]. apply Nat.leb_le in Hm. exact Hm.
  - intros (l & sg & g & gs & r & sign & Hs & Hl & Hr & Hsign & Hgs & Hlen & ->).
    inversion Hgs as [|? ? [Hne Hg] Hgs']; subst. rewrite Hs.
    destruct g as [|c g]; [contradiction|]. inversion Hg as [|? ? Hc Hg']; subst.
    assert (Hscan : PyInt.scan_digits
                      ((c :: g) ++ flat_map (fun g' => "_"%char :: g') gs ++ r) 0 0 false
                    = Some (decimal ((c :: g) ++ concat gs),
                            length ((c :: g) ++ concat gs), r)).
    { rewrite scan_digits_first, scan_digits_run, scan_digits_groups by
        (assumption || discriminate).
      unfold decimal. now rewrite fold_left_app, length_app. }
    assert (Hrun : PyInt.parse_sign
                     (PyInt.skip_spaces
                        (l ++ sg ++ (c :: g) ++ flat_map (fun g' => "_"%char :: g') gs ++ r))
                   = (sign, ((c :: g) ++ flat_map (fun g' => "_"%char :: g') gs ++ r)%list)).
    { rewrite skip_spaces_app by assumption.
      destruct (digit_char_other c Hc) as (Hsp & _ & _).
      repeat (apply elem_of_cons in Hsign as [[= -> ->]|Hsign]);
        [| | |now apply elem_of_nil in Hsign].
      - cbn [app PyInt.skip_spaces]. rewrite Hsp. now apply parse_sign_digit.
      - reflexivity.
      - reflexivity. }
    rewrite Hrun, Hscan. apply skip_spaces_all in Hr. rewrite Hr.
    apply Nat.leb_le in Hlen. unfold PyInt.max_str_digits. now rewrite Hlen.
Qed.

(** ** [astype(int)] and the integers a column converts to *)

Lemma in_int64_spec (z : Z) : in_int64 z = true <-> - 2 ^ 63 <= z < 2 ^ 63.
Proof.
  unfold in_int64, int64_min, int64_max. rewrite andb_true_iff, !Z.leb_le. lia.
Qed.

(** One cell of a column of objects converts to the integer it stands for. *)
Lemma to_int64_spec (v : value) (z : Z) : to_int64 v = Ok z <-> cell_int v z.
Proof.
  split.
  - destruct v as [| |b|z'|s]; cbn [to_int64]; try discriminate.
    + intros [= <-]. constructor.
    + destruct (in_int64 z') eqn:Hr; [|discriminate]. intros [= <-].
      constructor. now apply in_int64_spec.
    + destruct (PyInt.int_of_string s) as [z'|] eqn:Hs; [|discriminate].
      destruct (in_int64 z') eqn:Hr; [|discriminate]. intros [= <-].
      constructor; [now apply int_of_string_spec | now apply in_int64_spec].
  - intros H. destruct H as [z Hr|b|s z Hs Hr]; cbn [to_int64].
    + apply in_int64_spec in Hr. now rewrite Hr.
    + reflexivity.
    + apply int_of_string_spec in Hs. apply in_int64_spec in Hr. now rewrite Hs, Hr.
Qed.

Lemma astype_int_object_spec (vs ints : list value) :
  astype_int_object vs = Ok ints
  <-> Forall2 (fun c i => exists z, cell_int c z /\ i = VInt z) vs ints.
Proof.
  split.
  - revert ints. induction vs as [|v vs IH]; intros ints; cbn [astype_int_object].
    + intros [= <-]. constructor.
    + destruct (to_int64 v) as [z|e] eqn:Hv; [|discriminate].
      destruct (astype_int_object vs) as [zs|e]; [|discriminate]. intros [= <-].
      constructor; [|now apply IH]. exists z. split; [now apply to_int64_spec | reflexivity].
  - induction 1 as [|v i vs ints (z & Hz & ->) _ IH]; [reflexivity|].
    cbn [astype_int_object]. apply to_int64_spec in Hz. now rewrite Hz, IH.
Qed.

(** A column without text, booleans, nulls and gaps is a column of
    integers. *)
Lemma all_integers (vs : list value) :
  existsb is_str vs = false -> existsb is_bool vs = false ->
  existsb is_null vs = false -> existsb is_nan vs = false ->
  exists zs, vs = map VInt zs.
Proof.
  induction vs as [|v vs IH]; [now exists []|].
  cbn [existsb]. intros H1 H2 H3 H4.
  apply orb_false_iff in H1 as [H1 H1'], H2 as [H2 H2'], H3 as [H3 H3'], H4 as [H4 H4'].
  destruct (IH H1' H2' H3' H4') as [zs ->].
  destruct v as [| |b|z|s]; try discriminate. now exists (z :: zs).
Qed.

Lemma existsb_map_VInt (p : value -> bool) (zs : list Z) :
  existsb p (map VInt zs) = existsb (fun z => p (VInt z)) zs.
Proof. induction zs as [|z zs IH]; [reflexivity|]. cbn. now rewrite IH. Qed.

(** What the scan of a column of integers finds. *)
Lemma int_overflow_sound (zs : list Z) : forall s u,
  s && u = false ->
  int_overflow false s u (map VInt zs) = false ->
  Forall (fun z => - 2 ^ 63 <= z < 2 ^ 64) zs
  /\ (s = true \/ Exists (fun z => z < 0) zs ->
      u = true \/ Exists (fun z => 2 ^ 63 <= z) zs -> False).
Proof.
  induction zs as [|z zs IH]; intros s u Hsu; cbn [map int_overflow].
  - intros _. split; [constructor|].
    intros [->|Hs] [->|Hu]; try discriminate; inversion Hs || inversion Hu.
  - cbv zeta. unfold int64_min, int64_max, uint64_max.
    destruct (_ || _ || _) eqn:Hc; [discriminate|]. intros Hrec.
    apply orb_false_iff in Hc as [Hc Hlo]. apply orb_false_iff in Hc as [Hc Hhi].
    apply Z.ltb_ge in Hlo, Hhi. rewrite andb_comm in Hc.
    apply (IH _ _ Hc) in Hrec as [Hall Hrec].
    split; [constructor; [lia | assumption]|].
    intros Hs Hu. apply Hrec.
    + destruct Hs as [->|Hs]; [now left|]. inversion Hs as [? ? Hz|? ? Hz]; subst; [|now right].
      left. apply orb_true_iff. right. apply andb_true_iff.
      split; [apply Z.leb_le | apply Z.ltb_lt]; lia.
    + destruct Hu as [->|Hu]; [now left|]. inversion Hu as [? ? Hz|? ? Hz]; subst; [|now right].
      left. apply orb_true_iff. right. apply andb_true_iff.
      split; [apply Z.ltb_lt | apply Z.leb_le]; lia.
Qed.

(** The scan finds nothing in a column whose integers are all int64 ... *)
Lemma int_overflow_int64 (vs : list value) : forall s,
  Forall (fun v => match v with
                   | VInt z => - 2 ^ 63 <= z < 2 ^ 63
                   | VNull => False
                   | _ => True
                   end) vs ->
  int_overflow false s false vs = false.
Proof.
  induction vs as [|v vs IH]; intros s Hvs; [reflexivity|].
  inversion Hvs as [|? ? Hv Hvs']; subst.
  destruct v as [| |b|z|x]; cbn [int_overflow]; try (now apply IH); [contradiction|].
  cbv zeta. unfold int64_min, int64_max, uint64_max.
  replace (2 ^ 63 - 1 <? z) with false by (symmetry; apply Z.ltb_ge; lia).
  replace (2 ^ 64 - 1 <? z) with false by (symmetry; apply Z.ltb_ge; lia).
  replace (z <? - 2 ^ 63) with false by (symmetry; apply Z.ltb_ge; lia).
  cbn [andb orb]. now apply IH.
Qed.

(** ... and in a column of integers between 0 and 2^64 - 1. *)
Lemma int_overflow_uint64 (zs : list Z) : forall u,
  Forall (fun z => 0 <= z < 2 ^ 64) zs ->
  int_overflow false false u (map VInt zs) = false.
Proof.
  induction zs as [|z zs IH]; intros u Hzs; [reflexivity|].
  inversion Hzs as [|? ? Hz Hzs']; subst. cbn [map int_overflow].
  cbv zeta. unfold int64_min, int64_max, uint64_max.
  replace (z <? 0) with false by (symmetry; apply Z.ltb_ge; lia).
  replace (2 ^ 64 - 1 <? z) with false by (symmetry; apply Z.ltb_ge; lia).
  replace (z <? - 2 ^ 63) with false by (symmetry; apply Z.ltb_ge; lia).
  rewrite andb_false_r. cbn [andb orb]. rewrite andb_false_r. cbn [orb].
  now apply IH.
Qed.

(** The cells of a column that converts cell by cell. *)
Lemma cells_convert (vs ints : list value) :
  Forall2 (fun c i => exists z, cell_int c z /\ i = VInt z) vs ints ->
  existsb is_null vs = false /\ existsb is_nan vs = false
  /\ existsb (fun v => match v with VInt z => int64_max <? z | _ => false end) vs = false
  /\ Forall (fun v => match v with
                      | VInt z => - 2 ^ 63 <= z < 2 ^ 63
                      | VNull => False
                      | _ => True
                      end) vs.
Proof.
  induction 1 as [|v i vs ints (z & Hz & ->) _ (H1 & H2 & H3 & H4)].
  - repeat split; constructor.
  - cbn [existsb]. rewrite H1, H2, H3.
    destruct Hz as [z Hr|b|s z Hs Hr]; cbn [is_null is_nan orb];
      repeat split; try (constructor; [exact I || exact Hr | assumption]).
    unfold int64_max. rewrite orb_false_r. apply Z.ltb_ge. lia.
Qed.

(** [astype(int)] succeeds exactly on the columns that convert, with the
    integers they convert to. *)
Lemma astype_int_spec (vs ints : list value) :
  astype_int vs = Ok ints <-> column_ints vs ints.
Proof.
  unfold astype_int, infer_dtype, column_ints. split.
  - destruct (existsb is_str vs) eqn:Hstr; [left; now apply astype_int_object_spec|].
    destruct (int_overflow false false false vs) eqn:Hov;
      [left; now apply astype_int_object_spec|].
    destruct (existsb is_bool vs) eqn:Hbool.
    { destruct (forallb is_bool vs) eqn:Hall; [|left; now apply astype_int_object_spec].
      intros [= <-]. left. rewrite forallb_forall in Hall. clear - Hall.
      induction vs as [|v vs IH]; [constructor|]. cbn [map]. constructor.
      - specialize (Hall v ltac:(now left)). destruct v as [| |b| |]; try discriminate.
        exists (if b then 1 else 0). split; [constructor | reflexivity].
      - apply IH. intros x Hx. apply Hall. now right. }
    destruct (existsb is_null vs) eqn:Hnull.
    { cbn [orb]. destruct (_ || _); [discriminate|].
      left. now apply astype_int_object_spec. }
    destruct (existsb is_nan vs) eqn:Hnan.
    { cbn [orb]. rewrite orb_true_r. discriminate. }
    cbn [orb]. destruct (all_integers vs Hstr Hbool Hnull Hnan) as [zs ->].
    apply int_overflow_sound in Hov as [Hall Hsign]; [|reflexivity].
    rewrite existsb_map_VInt. destruct (existsb _ zs) eqn:Hbig; intros [= <-].
    + right. exists zs. apply existsb_exists in Hbig as (z0 & Hz0 & Hbig).
      unfold int64_max in Hbig. apply Z.ltb_lt in Hbig.
      assert (Hex : Exists (fun z => 2 ^ 63 <= z) zs).
      { apply Exists_exists. exists z0. split; [now apply list_elem_of_In | lia]. }
      split; [reflexivity|]. split; [|split; [exact Hex|]].
      * apply Forall_forall. intros z Hz. rewrite Forall_forall in Hall.
        specialize (Hall z Hz). split; [|lia].
        destruct (Z_lt_le_dec z 0) as [Hneg|]; [|assumption].
        exfalso. apply Hsign; [right | right; assumption].
        apply Exists_exists. now exists z.
      * rewrite map_map. apply map_ext. intros z. unfold wrap_int64, int64_max.
        destruct (Z.leb_spec z (2 ^ 63 - 1)), (Z.ltb_spec z (2 ^ 63)); try lia; reflexivity.
    + left. clear Hsign. induction zs as [|z zs IH]; [constructor|].
      cbn [existsb] in Hbig. apply orb_false_iff in Hbig as [Hz Hbig].
      inversion Hall as [|? ? Hr Hall']; subst. cbn [map]. constructor; [|now apply IH].
      exists z. split; [|reflexivity]. constructor.
      unfold int64_max in Hz. apply Z.ltb_ge in Hz. lia.
  - intros [Hcells|(zs & -> & Hzs & Hex & ->)].
    + destruct (cells_convert vs ints Hcells) as (Hnull & Hnan & Hbig & Hr).
      pose proof (proj2 (astype_int_object_spec vs ints) Hcells) as Hobj.
      destruct (existsb is_str vs) eqn:Hstr; [exact Hobj|].
      rewrite (int_overflow_int64 vs false Hr).
      destruct (existsb is_bool vs) eqn:Hbool.
      { destruct (forallb is_bool vs) eqn:Hall; [|exact Hobj]. f_equal.
        rewrite forallb_forall in Hall. clear - Hall Hcells.
        induction Hcells as [|v i vs ints (z & Hz & ->) _ IH]; [reflexivity|].
        cbn [map]. rewrite IH by (intros x Hx; apply Hall; now right).
        specialize (Hall v ltac:(now left)).
        destruct Hz; try discriminate. reflexivity. }
      rewrite Hnull, Hnan, Hbig. cbn [orb]. f_equal.
      destruct (all_integers vs Hstr Hbool Hnull Hnan) as [zs ->]. clear - Hcells.
      remember (map VInt zs) as vs eqn:Hvs. revert zs Hvs.
      induction Hcells as [|v i vs ints (z & Hz & ->) _ IH]; intros zs Hvs; [reflexivity|].
      destruct zs as [|z0 zs]; [discriminate|]. injection Hvs as -> ->.
      inversion Hz; subst. f_equal. now apply (IH zs).
    + rewrite !existsb_map_VInt. cbn [is_str is_bool is_null is_nan].
      assert (Hno : existsb (fun _ : Z => false) zs = false).
      { clear. induction zs; [reflexivity | assumption]. }
      rewrite !Hno, (int_overflow_uint64 zs false Hzs). cbn [orb].
      assert (Hbig : existsb (fun z => int64_max <? z) zs = true).
      { apply existsb_exists. apply Exists_exists in Hex as (z & Hz & Hbig).
        exists z. split; [now apply list_elem_of_In|].
        unfold int64_max. apply Z.ltb_lt. lia. }
      rewrite Hbig. f_equal. rewrite map_map. apply map_ext. intros z.
      unfold wrap_int64, int64_max.
      destruct (Z.leb_spec z (2 ^ 63 - 1)), (Z.ltb_spec z (2 ^ 63)); try lia; reflexivity.
Qed.

(** A column that converts converts to as many int64 integers as it has
    cells. *)
Lemma column_ints_int64 (vs ints : list value) :
  column_ints vs ints ->
  Forall (fun v => is_int64 v = true) ints /\ length ints = length vs.
Proof.
  intros [Hcells|(zs & -> & Hzs & _ & ->)].
  - split; [|symmetry; eapply Forall2_length; eassumption].
    induction Hcells as [|v i vs ints (z & Hz & ->) _ IH]; constructor; [|assumption].
    cbn [is_int64]. apply in_int64_spec. destruct Hz as [? ?|[]|? ? ? ?]; lia.
  - rewrite !length_map. split; [|reflexivity].
    apply Forall_forall. intros v Hv.
    apply list_elem_of_In, in_map_iff in Hv as (z & <- & Hz).
    rewrite Forall_forall in Hzs. apply list_elem_of_In in Hz. specialize (Hzs z Hz).
    cbn [is_int64]. apply in_int64_spec. destruct (Z.ltb_spec z (2 ^ 63)); lia.
Qed.


Example int_literal_grouped : int_literal " +1_000 " 1000.
Proof. now apply int_of_string_spec. Qed.

Example int_literal_fraction : forall z, ~ int_literal "5.5" z.
Proof. intros z H. apply int_of_string_spec in H. discriminate. Qed.

Example sales_volumes_convert : column_ints (volume_cells sales_rows) [VInt 5; VInt 3].
Proof. now apply astype_int_spec. Qed.

Example unsigned_volumes_wrap :
  column_ints [VInt 5; VInt (2 ^ 63)] [VInt 5; VInt (- 2 ^ 63)].
Proof. now apply astype_int_spec. Qed.

Example null_volume_converts_to_nothing :
  forall ints, ~ column_ints [VInt 5; VNull] ints.
Proof. intros ints H. apply astype_int_spec in H. discriminate. Qed.

(** ** The dataframe builder *)

Lemma first_seen_spec {A} `{EqDecision A} (k : A) (ks seen : list A) :
  k ∈ first_seen seen ks <-> k ∈ ks /\ k ∉ seen.
Proof.
  revert seen. induction ks as [|x ks IH]; intros seen; simpl.
  - rewrite elem_of_nil. tauto.
  - destruct (decide (x ∈ seen)) as [Hin|Hnin].
    + rewrite IH, elem_of_cons. split; [tauto|]. intros [[->|?] ?]; tauto.
    + rewrite !elem_of_cons, IH, elem_of_cons. split.
      * intros [->|[? ?]]; tauto.
      * intros [[->|?] ?]; [tauto|]. destruct (decide (k = x)); tauto.
Qed.

Lemma find_col_keyed (g : string -> list value) (k : string) (ks : list string) :
  find_col k (map (fun k' => (k', g k')) ks)
  = if decide (k ∈ ks) then Some (g k) else None.
Proof.
  induction ks as [|x ks IH]; cbn [map find_col].
  - destruct (decide (k ∈ [])) as [Hin|_]; [|reflexivity].
    now apply elem_of_nil in Hin.
  - destruct (decide (x = k)) as [->|Hne].
    + rewrite decide_True by (apply elem_of_cons; auto). reflexivity.
    + rewrite IH. destruct (decide (k ∈ ks)) as [Hin|Hnin].
      * rewrite decide_True by (apply elem_of_cons; auto). reflexivity.
      * rewrite decide_False; [reflexivity|].
        rewrite elem_of_cons. intros [?|?]; [congruence | contradiction].
Qed.

(** The [volume] column of the normalised frame. *)
Lemma getitem_json_normalize_volume rows :
  getitem (json_normalize rows) "volume" =
    if decide ("volume" ∈ all_keys rows)
    then Ok (volume_cells rows) else Raise (KeyError "volume").
Proof.
  destruct rows as [|r rows].
  - reflexivity.
  - unfold getitem, json_normalize. cbn [cols].
    rewrite (find_col_keyed (fun k => map (fun r0 => default VNaN (field k r0)) (r :: rows))).
    destruct (decide _); reflexivity.
Qed.

Lemma find_col_set_col name vs cs : find_col name (set_col name vs cs) = Some vs.
Proof.
  induction cs as [|[l ws] cs IH]; simpl.
  - now rewrite decide_True.
  - destruct (decide (l = name)) as [->|Hne]; simpl.
    + now rewrite decide_True.
    + now rewrite decide_False.
Qed.

Lemma create_dataframe_run w :
  create_dataframe w =
    match getitem (json_normalize (table w)) "volume" with
    | Raise e => (Raise e, after_normalize w)
    | Ok volume =>
        match astype_int volume with
        | Raise e => (Raise e, after_normalize w)
        | Ok ints =>
            (Ok (fresh (dom (heap w))),
             World (<[fresh (dom (heap w)) :=
                        setitem (json_normalize (table w)) "volume" ints]>
                      (heap (after_normalize w)))
                   (g_df w) (table w)
                   (trace w ++ [EvQuery "car_parts_monthly_sales" "*"]))
        end
    end.
Proof.
  unfold create_dataframe, run_query, bind, emit, alloc, deref, lift, update, ret,
    after_normalize.
  cbn [heap g_df table trace]. rewrite lookup_insert_eq.
  destruct (getitem _ "volume") as [volume|e]; [|reflexivity].
  destruct (astype_int volume) as [ints|e]; [|reflexivity].
  cbn [heap g_df table trace]. now rewrite lookup_insert_eq.
Qed.




(** C5: from the two records of part [A] (row identifiers 1 and 2, dates
    2023-01-01 and 2023-02-01, volumes "5" and "3"), [create_dataframe] builds
    the volume column [5, 3] of integers, and [format_dataset] for [A] returns
    the frame with the columns [unique_id] (all [A]), [ds] (the dates) and [y]
    (the volumes). *)
Theorem example_two_months :
  (exists r w',
     create_dataframe (fresh_world sales_rows) = (Ok r, w')
     /\ (f ← heap w' !! r; Some (getitem f "volume")) = Some (Ok [VInt 5; VInt 3]))
  /\ (exists r w',
        format_dataset [VStr "A"] (loaded sales_rows) = (Ok r, w')
        /\ heap w' !! r =
             Some (Frame [0; 1]
                     [("unique_id", [VStr "A"; VStr "A"]);
                      ("ds", [VStr "2023-01-01"; VStr "2023-02-01"]);
                      ("y", [VInt 5; VInt 3])])).
Proof.
  split; eexists _, _; (split; [vm_compute; reflexivity|]); vm_compute; reflexivity.
Qed.

(** ** One run of the script *)

Lemma find_col_set_col_ne name name' vs cs :
  name <> name' -> find_col name' (set_col name vs cs) = find_col name' cs.
Proof.
  intros Hne. induction cs as [|[l ws] cs IH]; simpl.
  - now rewrite decide_False.
  - destruct (decide (l = name)) as [->|Hl]; simpl.
    + now rewrite !decide_False.
    + destruct (decide (l = name')); [reflexivity | exact IH].
Qed.

Lemma main_run forecast u w :
  main forecast u w =
    match create_dataframe
            (World (heap w) (g_df w) (table w)
                   (trace w ++ [EvTitle "Forecast product demand"])) with
    | (Raise e, w1) => (Raise e, w1)
    | (Ok d, w1) =>
        let w2 := World (heap w1) (Some d) (table w1)
                        (trace w1 ++ [EvSubheader "Select a product"]) in
        match heap w1 !! d with
        | None => (Raise SystemError, w2)
        | Some f =>
            match getitem f "parts_id" with
            | Raise e => (Raise e, w2)
            | Ok parts =>
                (emit (EvMultiselect "Select product ID" (unique parts)) ;;
                 plot_volume (multiselect (unique parts) u) ;;
                 emit (EvExpander "Forecast") ;;
                 forecast_panel forecast (multiselect (unique parts) u) u) w2
            end
        end
    end.
Proof.
  unfold main at 1. unfold bind at 1. unfold emit at 1. unfold bind at 1.
  destruct (create_dataframe _) as [[d|e] w1]; [|reflexivity].
  unfold bind at 1. unfold store_df at 1. cbn [table heap g_df trace].
  unfold bind at 1. unfold emit at 1. cbn [table heap g_df trace].
  unfold bind at 1. unfold load_df at 1. cbn [table heap g_df trace].
  unfold bind at 1. unfold deref at 1. cbn [table heap g_df trace].
  destruct (heap w1 !! d) as [f|]; [|reflexivity].
  unfold bind at 1. unfold lift at 1.
  destruct (getitem f "parts_id"); reflexivity.
Qed.

Lemma getitem_setitem_ne f name name' vs :
  name <> name' -> getitem (setitem f name vs) name' = getitem f name'.
Proof.
  intros Hne. unfold getitem, setitem. cbn [cols].
  now rewrite find_col_set_col_ne.
Qed.

(** A run of the script, up to the multiselect. *)
Lemma main_cases forecast u w :
  main forecast u w =
    match getitem (json_normalize (table w)) "volume" with
    | Raise e => (Raise e, failed_load w)
    | Ok volume =>
        match astype_int volume with
        | Raise e => (Raise e, failed_load w)
        | Ok ints =>
            match getitem (json_normalize (table w)) "parts_id" with
            | Raise e => (Raise e, at_select w ints)
            | Ok parts =>
                (emit (EvMultiselect "Select product ID" (unique parts)) ;;
                 plot_volume (multiselect (unique parts) u) ;;
                 emit (EvExpander "Forecast") ;;
                 forecast_panel forecast (multiselect (unique parts) u) u)
                  (at_select w ints)
            end
        end
    end.
Proof.
  rewrite main_run, create_dataframe_run. cbn [table heap g_df trace].
  unfold after_normalize, failed_load, at_select. cbn [table heap g_df trace].
  rewrite <- !app_assoc. cbn [app].
  destruct (getitem _ "volume") as [volume|e]; [|reflexivity].
  destruct (astype_int volume) as [ints|e]; [|reflexivity].
  cbv zeta. cbn [table heap g_df trace]. rewrite lookup_insert_eq.
  rewrite getitem_setitem_ne by discriminate.
  rewrite <- !app_assoc. cbn [app].
  destruct (getitem _ "parts_id"); reflexivity.
Qed.

Lemma getitem_json_normalize name rows :
  getitem (json_normalize rows) name =
    if decide (name ∈ all_keys rows)
    then Ok (key_cells name rows) else Raise (KeyError name).
Proof.
  destruct rows as [|r rows].
  - destruct (decide (name ∈ all_keys [])) as [H|_]; [|reflexivity].
    now apply elem_of_nil in H.
  - unfold getitem, json_normalize. cbn [cols].
    rewrite (find_col_keyed (fun k => map (fun r0 => default VNaN (field k r0)) (r :: rows))).
    destruct (decide _); reflexivity.
Qed.

(** C3: when the selection is empty, a run of the script shows none of the
    forecast widgets and calls neither the forecast runner nor the library;
    and on every table that loads and has the column [parts_id] (so that the
    run gets as far as a selection), the run ends normally, the warning the
    last thing of the page: title, query, subheader, multiselect, an empty
    chart, the expander, the warning. *)
Theorem empty_selection_warns (forecast : stats_forecast -> Z -> result forecast_frame)
    (u : session) (w : world) :
  multiselect (offered w) u = [] ->
  (exists evs,
     trace (snd (main forecast u w)) = (trace w ++ evs)%list
     /\ Forall (fun e => forecast_action e = false) evs)
  /\ (forall ints,
        "volume" ∈ all_keys (table w) -> column_ints (volume_cells (table w)) ints ->
        "parts_id" ∈ all_keys (table w) ->
        exists w' options,
          main forecast u w = (Ok tt, w')
          /\ trace w' =
               (trace w ++
                [EvTitle "Forecast product demand";
                 EvQuery "car_parts_monthly_sales" "*";
                 EvSubheader "Select a product";
                 EvMultiselect "Select product ID" options;
                 EvPyplot empty_figure;
                 EvExpander "Forecast";
                 EvWarning "Select at least one product ID to forecast"])%list).
Proof.
  intros Hsel. rewrite main_cases. unfold offered in *.
  rewrite getitem_json_normalize_volume. split.
  - destruct (decide _) as [Hin|Hnin].
    2:{ eexists. split; [reflexivity | repeat constructor]. }
    destruct (astype_int _) as [ints|e].
    2:{ eexists. split; [reflexivity | repeat constructor]. }
    destruct (getitem _ "parts_id") as [parts|e].
    2:{ eexists. split; [reflexivity | repeat constructor]. }
    rewrite Hsel.
    change (forecast_panel forecast [] u)
      with (emit (EvWarning "Select at least one product ID to forecast")).
    eexists [_; _; _; _; _; _; _]. split.
    + unfold bind, emit, plot_volume, at_select. cbn.
      rewrite <- !app_assoc. reflexivity.
    + repeat constructor.
  - intros ints Hin Hints Hp. rewrite decide_True by assumption.
    apply astype_int_spec in Hints. rewrite Hints.
    rewrite getitem_json_normalize, decide_True in * by assumption.
    rewrite Hsel.
    change (forecast_panel forecast [] u)
      with (emit (EvWarning "Select at least one product ID to forecast")).
    eexists _, _. split; [reflexivity|].
    unfold bind, emit, plot_volume, at_select. cbn.
    rewrite <- !app_assoc. reflexivity.
Qed.

Lemma empty_selection_warns_witness :
  (exists evs,
     trace (snd (main flat_forecast (Session [] 3 true) (fresh_world sales_rows)))
     = (trace (fresh_world sales_rows) ++ evs)%list
     /\ Forall (fun e => forecast_action e = false) evs)
  /\ (forall ints,
        "volume" ∈ all_keys (table (fresh_world sales_rows)) ->
        column_ints (volume_cells (table (fresh_world sales_rows))) ints ->
        "parts_id" ∈ all_keys (table (fresh_world sales_rows)) ->
        exists w' options,
          main flat_forecast (Session [] 3 true) (fresh_world sales_rows) = (Ok tt, w')
          /\ trace w' =
               (trace (fresh_world sales_rows) ++
                [EvTitle "Forecast product demand";
                 EvQuery "car_parts_monthly_sales" "*";
                 EvSubheader "Select a product";
                 EvMultiselect "Select product ID" options;
                 EvPyplot empty_figure;
                 EvExpander "Forecast";
                 EvWarning "Select at least one product ID to forecast"])%list).
Proof.
  apply (empty_selection_warns flat_forecast (Session [] 3 true) (fresh_world sales_rows)).
  reflexivity.
Defined.

(** ** What the calls put on the trace *)

Lemma format_dataset_trace ids w : trace (snd (format_dataset ids w)) = trace w.
Proof.
  destruct (g_df w) as [l|] eqn:Hg.
  2:{ now rewrite format_dataset_unbound. }
  destruct (heap w !! l) as [d|] eqn:Hl.
  2:{ now rewrite (format_dataset_dangling _ w l). }
  pose proof (format_dataset_run ids w l d Hg Hl) as Hrun.
  destruct (getitem d "parts_id") as [parts|e]; [|now rewrite Hrun].
  cbv zeta in Hrun. destruct (drop_cols ["id"] _); now rewrite Hrun.
Qed.

Lemma bind_trace {A B} (m : M A) (k : A -> M B) (w : world) (t : list event) :
  trace (snd (m w)) = t ->
  (forall a w', trace w' = t -> trace (snd (k a w')) = t) ->
  trace (snd (bind m k w)) = t.
Proof.
  intros Hm Hk. unfold bind. destruct (m w) as [[a|e] w']; simpl in *; auto.
Qed.

Lemma deref_trace l w : trace (snd (deref l w)) = trace w.
Proof. unfold deref. now destruct (heap w !! l). Qed.

Lemma lift_trace {A} (r : result A) w : trace (snd (lift r w)) = trace w.
Proof. reflexivity. Qed.

Lemma load_df_trace w : trace (snd (load_df w)) = trace w.
Proof. unfold load_df. now destruct (g_df w). Qed.

Lemma rows_of_trace id w : trace (snd (rows_of id w)) = trace w.
Proof.
  unfold rows_of.
  apply bind_trace; [apply load_df_trace|]. intros l w1 H1.
  apply bind_trace; [now rewrite deref_trace|]. intros f w2 H2.
  apply bind_trace; [now rewrite load_df_trace|]. intros l' w3 H3.
  apply bind_trace; [now rewrite deref_trace|]. intros f' w4 H4.
  apply bind_trace; [now rewrite lift_trace|]. intros parts w5 H5.
  exact H5.
Qed.

Lemma plot_lines_trace ids ax w : trace (snd (plot_lines ids ax w)) = trace w.
Proof.
  revert ax w. induction ids as [|id ids IH]; intros ax w; [reflexivity|].
  cbn [plot_lines].
  apply bind_trace; [apply rows_of_trace|]. intros r w1 H1.
  apply bind_trace; [now rewrite deref_trace|]. intros fx w2 H2.
  apply bind_trace; [now rewrite lift_trace|]. intros x w3 H3.
  apply bind_trace; [now rewrite rows_of_trace|]. intros r' w4 H4.
  apply bind_trace; [now rewrite deref_trace|]. intros fy w5 H5.
  apply bind_trace; [now rewrite lift_trace|]. intros y w6 H6.
  now rewrite IH.
Qed.



(** ** Reading the CSV text back *)














(** ** The download *)



(** ** Lists without repetition *)

Lemma first_seen_NoDup {A} `{EqDecision A} (seen ks : list A) :
  NoDup (first_seen seen ks).
Proof.
  revert seen. induction ks as [|k ks IH]; intros seen; simpl; [constructor|].
  destruct (decide (k ∈ seen)); [apply IH|].
  apply NoDup_cons. split; [|apply IH].
  rewrite first_seen_spec, elem_of_cons. tauto.
Qed.

Lemma elem_of_unique (v : value) (vs : list value) : v ∈ unique vs <-> v ∈ vs.
Proof.
  unfold unique. rewrite first_seen_spec.
  split; [tauto|]. intros H; split; [assumption | apply not_elem_of_nil].
Qed.

Lemma length_data_rows idx cs : length (data_rows idx cs) = length idx.
Proof.
  revert cs. induction idx as [|i idx IH]; intros cs; simpl; [reflexivity|].
  now rewrite IH.
Qed.

(** ** The CSV text, line by line *)

Lemma line_feeds_append (s1 s2 : string) :
  Csv.line_feeds (s1 ++ s2) = (Csv.line_feeds s1 + Csv.line_feeds s2)%nat.
Proof.
  induction s1 as [|c s1 IH]; simpl; [reflexivity|]. rewrite IH. lia.
Qed.

Lemma line_feeds_double_quotes (s : string) :
  Csv.line_feeds (Csv.double_quotes s) = Csv.line_feeds s.
Proof.
  induction s as [|c s IH]; simpl; [reflexivity|].
  case_bool_decide as Hq; simpl.
  - subst c. rewrite IH. reflexivity.
  - now rewrite IH.
Qed.

Lemma line_feeds_quote_field (s : string) :
  Csv.line_feeds (Csv.quote_field s) = Csv.line_feeds s.
Proof.
  unfold Csv.quote_field. destruct (Csv.needs_quotes s); [|reflexivity].
  simpl. rewrite line_feeds_append, line_feeds_double_quotes. simpl. lia.
Qed.

Lemma line_feeds_join_fields (fs : list string) :
  Forall (fun f => Csv.line_feeds f = 0%nat) fs ->
  Csv.line_feeds (Csv.join_fields fs) = 0%nat.
Proof.
  induction 1 as [|f fs Hf Hfs IH]; [reflexivity|].
  destruct fs as [|g fs].
  - simpl. now rewrite line_feeds_quote_field.
  - change (Csv.join_fields (f :: g :: fs))
      with (Csv.quote_field f ++ String Csv.comma (Csv.join_fields (g :: fs)))%string.
    rewrite line_feeds_append, line_feeds_quote_field, Hf.
    cbn [Csv.line_feeds]. now rewrite IH.
Qed.

(** When no field contains a line feed, the text has one line per row. *)
Lemma line_feeds_write (rows : list (list string)) :
  Forall (Forall (fun f => Csv.line_feeds f = 0%nat)) rows ->
  Csv.line_feeds (Csv.write rows) = length rows.
Proof.
  induction 1 as [|r rows Hr Hrows IH]; [reflexivity|].
  cbn [Csv.write fold_right length]. fold (Csv.write rows).
  rewrite line_feeds_append, IH. f_equal.
  destruct r as [|[|a f] [|g r]]; try reflexivity; unfold Csv.write_row;
    rewrite line_feeds_append, line_feeds_join_fields by assumption; reflexivity.
Qed.

(** * Further properties of the code *)

(** ** More on the dataframe builder *)

Lemma labels_json_normalize rows : labels (json_normalize rows) = all_keys rows.
Proof.
  destruct rows as [|r rows]; [reflexivity|].
  unfold labels, json_normalize. cbn [cols]. rewrite map_map. apply map_id.
Qed.

Lemma all_keys_nonempty (k : string) rows : k ∈ all_keys rows -> rows <> [].
Proof. intros Hk ->. now apply elem_of_nil in Hk. Qed.

Lemma length_range_index n : length (range_index n) = n.
Proof. unfold range_index. now rewrite length_map, length_seq. Qed.

Lemma index_json_normalize rows :
  index (json_normalize rows) = range_index (length rows).
Proof. now destruct rows. Qed.

Lemma rectangular_json_normalize rows : rectangular (json_normalize rows).
Proof.
  unfold rectangular. rewrite index_json_normalize, length_range_index.
  destruct rows as [|r rows]; [constructor|].
  unfold json_normalize. cbn [cols]. apply Forall_forall. intros c Hc.
  apply list_elem_of_In, in_map_iff in Hc as (k & <- & _).
  cbn [snd]. apply length_map.
Qed.

Lemma labels_set_col name vs cs :
  name ∈ map fst cs -> map fst (set_col name vs cs) = map fst cs.
Proof.
  induction cs as [|[l ws] cs IH]; simpl.
  - intros H. now apply elem_of_nil in H.
  - rewrite elem_of_cons. intros H. destruct (decide (l = name)) as [->|Hne]; simpl.
    + reflexivity.
    + rewrite IH; [reflexivity|]. destruct H; [congruence | assumption].
Qed.

Lemma Forall_set_col (P : string * list value -> Prop) name vs cs :
  Forall P cs -> (forall l, P (l, vs)) -> Forall P (set_col name vs cs).
Proof.
  intros Hcs Hvs. induction Hcs as [|[l ws] cs Hc Hcs IH]; simpl.
  - constructor; [apply Hvs | constructor].
  - destruct (decide (l = name)); constructor; auto.
Qed.

Lemma set_col_same name vs cs :
  find_col name cs = Some vs -> set_col name vs cs = cs.
Proof.
  induction cs as [|[l ws] cs IH]; simpl; [discriminate|].
  destruct (decide (l = name)) as [->|Hne].
  - now intros [= ->].
  - intros H. now rewrite IH.
Qed.

(** What [create_dataframe] returns, read off its run. *)
Lemma create_dataframe_returns w r w' :
  create_dataframe w = (Ok r, w') ->
  exists ints,
    "volume" ∈ all_keys (table w)
    /\ astype_int (volume_cells (table w)) = Ok ints
    /\ r = fresh (dom (heap w))
    /\ heap w' !! r = Some (setitem (json_normalize (table w)) "volume" ints).
Proof.
  rewrite create_dataframe_run, getitem_json_normalize_volume.
  destruct (decide _) as [Hin|Hnin]; [|discriminate].
  destruct (astype_int _) as [ints|e]; [|discriminate].
  intros [= <- <-]. exists ints. repeat split; try assumption.
  cbn [heap]. apply lookup_insert_eq.
Qed.

(** X1: the frame [create_dataframe] returns has one row per record,
    labelled 0, 1, ...; its columns are the keys of the records in order of
    first appearance, each once, and every column has a cell for every
    record. *)
Theorem create_dataframe_shape (w : world) (r : loc) (w' : world) :
  create_dataframe w = (Ok r, w') ->
  exists f,
    heap w' !! r = Some f
    /\ index f = range_index (length (table w))
    /\ labels f = all_keys (table w)
    /\ NoDup (labels f)
    /\ rectangular f.
Proof.
  intros Hrun. apply create_dataframe_returns in Hrun as (ints & Hin & Hast & _ & Hr).
  eexists. split; [exact Hr|].
  destruct (column_ints_int64 _ _ (proj1 (astype_int_spec _ _) Hast)) as [_ Hlen].
  assert (Hlab : labels (setitem (json_normalize (table w)) "volume" ints)
                 = all_keys (table w)).
  { unfold labels, setitem. cbn [cols]. rewrite labels_set_col.
    - apply labels_json_normalize.
    - fold (labels (json_normalize (table w))). now rewrite labels_json_normalize. }
  split; [apply index_json_normalize|]. split; [exact Hlab|].
  split; [rewrite Hlab; apply first_seen_NoDup|].
  unfold rectangular, setitem. cbn [cols index].
  apply Forall_set_col; [apply rectangular_json_normalize|].
  intros l. cbn [snd]. rewrite Hlen, index_json_normalize, length_range_index.
  unfold volume_cells. apply length_map.
Qed.

Lemma create_dataframe_shape_witness :
  exists f,
    heap (snd (create_dataframe (fresh_world two_parts_rows))) !! 0%nat = Some f
    /\ index f = range_index (length (table (fresh_world two_parts_rows)))
    /\ labels f = all_keys (table (fresh_world two_parts_rows))
    /\ NoDup (labels f)
    /\ rectangular f.
Proof.
  apply (create_dataframe_shape (fresh_world two_parts_rows) 0%nat).
  vm_compute. reflexivity.
Defined.

Lemma elem_of_all_keys (k : string) (rows : list record) :
  k ∈ all_keys rows <-> exists r, r ∈ rows /\ k ∈ map fst r.
Proof.
  unfold all_keys. rewrite first_seen_spec, list_elem_of_In, in_concat. split.
  - intros [(ks & Hks & Hk) _]. apply in_map_iff in Hks as (r & <- & Hr).
    exists r. split; now apply list_elem_of_In.
  - intros (r & Hr & Hk). split; [|apply not_elem_of_nil].
    exists (map fst r). split; [|now apply list_elem_of_In].
    apply in_map. now apply list_elem_of_In.
Qed.

Lemma field_Some_key (k : string) (r : record) (v : value) :
  field k r = Some v -> k ∈ map fst r.
Proof.
  induction r as [|[k' v'] r IH]; cbn [field map fst]; [discriminate|].
  destruct (decide (k' = k)) as [->|Hne]; intros H; apply elem_of_cons; auto.
Qed.

(** X2: the conversion touches the volume column only.  A name that is no
    key of any record is no column of the returned frame; and a field that
    every record has, with a value that is not null, is a column that holds
    these values as they came, record by record. *)
Theorem create_dataframe_other_columns (w : world) (r : loc) (w' : world)
    (name : string) :
  create_dataframe w = (Ok r, w') -> name <> "volume" ->
  exists f,
    heap w' !! r = Some f
    /\ (name ∉ all_keys (table w) -> getitem f name = Raise (KeyError name))
    /\ (forall vs,
          Forall2 (fun rec v => field name rec = Some v /\ v <> VNull /\ v <> VNaN)
                  (table w) vs ->
          getitem f name = Ok vs).
Proof.
  intros Hrun Hne. apply create_dataframe_returns in Hrun as (ints & Hin & _ & _ & Hr).
  eexists. split; [exact Hr|].
  rewrite getitem_setitem_ne by congruence. rewrite getitem_json_normalize. split.
  - intros Hnin. now rewrite decide_False by assumption.
  - intros vs Hvs. rewrite decide_True.
    + f_equal. unfold key_cells. clear - Hvs.
      induction Hvs as [|rec v rows vs (Hv & _) _ IH]; [reflexivity|].
      cbn [map]. now rewrite Hv, IH.
    + apply elem_of_all_keys. destruct Hvs as [|rec v rows vs (Hv & _) _].
      * now apply elem_of_nil in Hin.
      * exists rec. split; [apply elem_of_cons; now left|].
        eapply field_Some_key; eassumption.
Qed.

Lemma create_dataframe_other_columns_witness :
  exists f,
    heap (snd (create_dataframe (fresh_world sales_rows))) !! 0%nat = Some f
    /\ ("date" ∉ all_keys (table (fresh_world sales_rows)) ->
        getitem f "date" = Raise (KeyError "date"))
    /\ (forall vs,
          Forall2 (fun rec v => field "date" rec = Some v /\ v <> VNull /\ v <> VNaN)
                  (table (fresh_world sales_rows)) vs ->
          getitem f "date" = Ok vs).
Proof.
  apply (create_dataframe_other_columns (fresh_world sales_rows) 0%nat).
  - vm_compute. reflexivity.
  - discriminate.
Defined.

Lemma astype_int_int64 (vs : list value) :
  Forall (fun v => is_int64 v = true) vs -> astype_int vs = Ok vs.
Proof.
  intros Hvs. apply astype_int_spec. left.
  induction Hvs as [|v vs Hv _ IH]; constructor; [|assumption].
  destruct v as [| | |z|]; try discriminate. exists z. split; [|reflexivity].
  constructor. now apply in_int64_spec.
Qed.

(** X3: whatever its outcome, a call of [create_dataframe] asks the
    database once, leaves the module-level [df] as it was (the [df] in its
    body is a local name), leaves every frame that existed before as it was,
    and the frame it returns is a new object. *)
Theorem create_dataframe_effects (w : world) :
  g_df (snd (create_dataframe w)) = g_df w
  /\ table (snd (create_dataframe w)) = table w
  /\ trace (snd (create_dataframe w))
     = (trace w ++ [EvQuery "car_parts_monthly_sales" "*"])%list
  /\ (forall l f, heap w !! l = Some f ->
                  heap (snd (create_dataframe w)) !! l = Some f)
  /\ (forall r, fst (create_dataframe w) = Ok r -> heap w !! r = None).
Proof.
  rewrite create_dataframe_run.
  assert (Hkeep : forall l f g, heap w !! l = Some f ->
            <[fresh (dom (heap w)) := g]> (heap w) !! l = Some f).
  { intros l f g Hl. rewrite lookup_insert_ne; [assumption|].
    eapply fresh_ne; eassumption. }
  destruct (getitem _ "volume") as [volume|e].
  2:{ cbn. repeat split; auto. discriminate. }
  destruct (astype_int volume) as [ints|e].
  2:{ cbn. repeat split; auto. discriminate. }
  cbn [fst snd heap g_df table trace after_normalize].
  repeat split.
  - intros l f Hl.
    rewrite lookup_insert_ne by (eapply fresh_ne; eassumption). now apply Hkeep.
  - intros r [= <-]. apply fresh_lookup.
Qed.

(** X4: on a table whose volumes are int64 integers already, the
    conversion changes nothing: the frame returned is the normalised one. *)
Theorem create_dataframe_integers_unchanged (w : world) :
  "volume" ∈ all_keys (table w) ->
  Forall (fun v => is_int64 v = true) (volume_cells (table w)) ->
  exists r w',
    create_dataframe w = (Ok r, w')
    /\ heap w' !! r = Some (json_normalize (table w)).
Proof.
  intros Hin Hints. rewrite create_dataframe_run, getitem_json_normalize_volume.
  rewrite decide_True by assumption. rewrite (astype_int_int64 _ Hints).
  eexists _, _. split; [reflexivity|]. cbn [heap].
  rewrite lookup_insert_eq. f_equal.
  unfold setitem. destruct (json_normalize (table w)) as [idx cs] eqn:Hjn.
  cbn [index cols]. f_equal. apply set_col_same.
  pose proof (getitem_json_normalize_volume (table w)) as Hg.
  rewrite decide_True in Hg by assumption. rewrite Hjn in Hg.
  unfold getitem in Hg. cbn [cols] in Hg.
  destruct (find_col "volume" cs); [now injection Hg as -> | discriminate].
Qed.

Lemma create_dataframe_integers_unchanged_witness :
  exists r w',
    create_dataframe (fresh_world two_parts_rows) = (Ok r, w')
    /\ heap w' !! r = Some (json_normalize (table (fresh_world two_parts_rows))).
Proof.
  apply (create_dataframe_integers_unchanged (fresh_world two_parts_rows)).
  - apply (bool_decide_unpack _). vm_compute. exact I.
  - repeat constructor.
Defined.

(** ** More on the dataset formatter *)

Lemma getitem_missing f name :
  name ∉ labels f -> getitem f name = Raise (KeyError name).
Proof.
  intros H. unfold getitem. destruct (find_col name (cols f)) as [vs|] eqn:Hf.
  - exfalso. apply H, find_col_Some_label. eauto.
  - reflexivity.
Qed.

(** X5: with [df] bound, [format_dataset] fails exactly when the frame
    lacks one of the columns [parts_id] and [id], whatever identifiers are
    asked for; a missing [parts_id] is reported first, by the key error of
    the lookup, and then nothing has been built; a missing [id] is reported
    by the key error of the drop, with its message. *)
Theorem format_dataset_key_errors (w : world) (l : loc) (d : frame) (ids : list value) :
  g_df w = Some l -> heap w !! l = Some d ->
  ("parts_id" ∉ labels d ->
     format_dataset ids w = (Raise (KeyError "parts_id"), w))
  /\ ("parts_id" ∈ labels d -> "id" ∉ labels d ->
      fst (format_dataset ids w) = Raise (KeyError "['id'] not found in axis"))
  /\ ("parts_id" ∈ labels d -> "id" ∈ labels d ->
      is_ok (fst (format_dataset ids w)) = true).
Proof.
  intros Hg Hl. pose proof (format_dataset_run ids w l d Hg Hl) as Hrun.
  split; [|split].
  - intros Hp. now rewrite (getitem_missing d "parts_id" Hp) in Hrun.
  - intros Hp Hi. destruct (getitem_ok_label d "parts_id" Hp) as [parts Hparts].
    rewrite Hparts in Hrun. cbv zeta in Hrun.
    rewrite drop_cols_id, labels_take_rows, decide_False in Hrun by assumption.
    now rewrite Hrun.
  - intros Hp Hi. destruct (getitem_ok_label d "parts_id" Hp) as [parts Hparts].
    rewrite Hparts in Hrun. cbv zeta in Hrun.
    rewrite drop_cols_id, labels_take_rows, decide_True in Hrun by assumption.
    now rewrite Hrun.
Qed.

Lemma format_dataset_key_errors_witness :
  format_dataset [VStr "A"] (loaded rows_without_parts_id)
  = (Raise (KeyError "parts_id"), loaded rows_without_parts_id).
Proof.
  apply (proj1 (format_dataset_key_errors (loaded rows_without_parts_id) 0%nat
                  literal_frame [VStr "A"] eq_refl eq_refl)).
  apply (bool_decide_unpack _). vm_compute. exact I.
Defined.

Lemma labels_filter_not_id (cs : list (string * list value)) :
  map fst (filter (fun c => fst c ∉ ["id"]) cs)
  = filter (fun l => l <> "id") (map fst cs).
Proof.
  induction cs as [|[l vs] cs IH]; [reflexivity|].
  cbn [map fst]. rewrite !filter_cons. cbn [fst].
  destruct (decide (l ∉ ["id"])) as [H|H];
    destruct (decide (l <> "id")) as [H'|H']; cbn [map fst]; rewrite ?IH; try reflexivity.
  - exfalso. apply H'. intros ->. apply H. now apply list_elem_of_singleton.
  - exfalso. apply H. intros Hin. apply list_elem_of_singleton in Hin. contradiction.
Qed.

Lemma find_col_elem_of name cs vs :
  find_col name cs = Some vs -> (name, vs) ∈ cs.
Proof.
  induction cs as [|[l ws] cs IH]; simpl; [discriminate|].
  destruct (decide (l = name)) as [->|Hne].
  - intros [= ->]. apply elem_of_cons. now left.
  - intros H. apply elem_of_cons. right. auto.
Qed.

Lemma length_select_same {A B} (mask : list bool) (xs : list A) (ys : list B) :
  length xs = length ys -> length (select mask xs) = length (select mask ys).
Proof.
  revert xs ys. induction mask as [|b mask IH]; intros [|x xs] [|y ys]; simpl;
    try reflexivity; try discriminate.
  intros [= H]. destruct b; simpl; auto.
Qed.

Lemma length_select_isin {A} (parts ids : list value) (xs : list A) :
  length xs = length parts ->
  length (select (isin parts ids) xs) = length (filter (fun v => v ∈ ids) parts).
Proof.
  revert xs. induction parts as [|p parts IH]; intros [|x xs]; simpl;
    try reflexivity; try discriminate.
  intros [= H]. rewrite filter_cons. case_bool_decide as Hp.
  - rewrite decide_True by assumption. simpl. now rewrite IH.
  - rewrite decide_False by assumption. now apply IH.
Qed.

Lemma select_all {A} (mask : list bool) (xs : list A) :
  Forall (fun b => b = true) mask -> length xs = length mask ->
  select mask xs = xs.
Proof.
  intros Hall. revert xs. induction Hall as [|b mask -> _ IH]; intros [|x xs]; simpl;
    try reflexivity; try discriminate.
  intros [= H]. now rewrite IH.
Qed.

Lemma rectangular_take_rows mask f : rectangular f -> rectangular (take_rows mask f).
Proof.
  unfold rectangular, take_rows. cbn [cols index]. intros H.
  apply Forall_forall. intros c Hc.
  apply list_elem_of_In, in_map_iff in Hc as (c0 & <- & Hc0). cbn [snd].
  apply length_select_same. rewrite Forall_forall in H.
  apply H. now apply list_elem_of_In.
Qed.

(** The frame [format_frame] gives when both columns are there, spelled out. *)
Lemma format_frame_cols d ids parts :
  getitem d "parts_id" = Ok parts -> "id" ∈ labels d ->
  format_frame d ids =
    Ok (Frame (select (isin parts ids) (index d))
          (map (fun c => (rename_label statsforecast_names (fst c),
                          select (isin parts ids) (snd c)))
               (filter (fun c => fst c ∉ ["id"]) (cols d)))).
Proof.
  intros Hparts Hid. unfold format_frame. rewrite Hparts, drop_cols_id.
  rewrite labels_take_rows, decide_True by assumption.
  unfold rename_cols, take_rows. cbn [cols index].
  rewrite filter_take_rows, map_map. reflexivity.
Qed.

(** X6: [format_dataset] keeps every column other than [id], in the
    order of the table, under its own name unless it is one of the three the
    library wants renamed: a column the script does not know reaches the
    library. *)
Theorem format_dataset_columns (w : world) (l : loc) (d : frame) (ids : list value) :
  g_df w = Some l -> heap w !! l = Some d ->
  "parts_id" ∈ labels d -> "id" ∈ labels d ->
  exists r w' m,
    format_dataset ids w = (Ok r, w') /\ heap w' !! r = Some m
    /\ labels m = map (rename_label statsforecast_names)
                      (filter (fun l => l <> "id") (labels d)).
Proof.
  intros Hg Hl Hp Hi. destruct (getitem_ok_label d "parts_id" Hp) as [parts Hparts].
  pose proof (format_frame_cols d ids parts Hparts Hi) as Hm.
  destruct (format_dataset_ok ids w l d _ Hg Hl Hm) as (r & w' & Hrun & Hr & _).
  eexists r, w', _. split; [exact Hrun|]. split; [exact Hr|].
  unfold labels. cbn [cols]. rewrite map_map. cbn [fst].
  rewrite <- labels_filter_not_id, map_map. reflexivity.
Qed.

Lemma format_dataset_columns_witness :
  exists r w' m,
    format_dataset [VStr "A"] (loaded regional_rows) = (Ok r, w')
    /\ heap w' !! r = Some m
    /\ labels m = map (rename_label statsforecast_names)
                      (filter (fun l => l <> "id") (labels regional_frame)).
Proof.
  apply (format_dataset_columns (loaded regional_rows) 0%nat regional_frame).
  - reflexivity.
  - reflexivity.
  - apply (bool_decide_unpack _). vm_compute. exact I.
  - apply (bool_decide_unpack _). vm_compute. exact I.
Defined.

(** X7: on a frame all of whose columns are as long as the index,
    [format_dataset] keeps exactly the rows whose identifier is asked for, in
    the order of the table and under their old row labels: the index and
    every kept column are cut down by the same mask, the result is
    rectangular again, and it has as many rows as the table has rows with a
    requested identifier.  Identifiers are integers or text, those asked for
    and those of the table. *)
Theorem format_dataset_rows (w : world) (l : loc) (d : frame)
    (ids parts : list value) :
  g_df w = Some l -> heap w !! l = Some d ->
  rectangular d -> getitem d "parts_id" = Ok parts -> "id" ∈ labels d ->
  Forall (fun v => identifier v = true) ids ->
  Forall (fun v => identifier v = true) parts ->
  exists r w' m,
    format_dataset ids w = (Ok r, w') /\ heap w' !! r = Some m
    /\ index m = select (isin parts ids) (index d)
    /\ (forall c vs, (c, vs) ∈ cols d -> c <> "id" ->
          (rename_label statsforecast_names c, select (isin parts ids) vs) ∈ cols m)
    /\ rectangular m
    /\ length (index m) = length (filter (fun v => v ∈ ids) parts).
Proof.
  intros Hg Hl Hrect Hparts Hi _ _.
  pose proof (format_frame_cols d ids parts Hparts Hi) as Hm.
  destruct (format_dataset_ok ids w l d _ Hg Hl Hm) as (r & w' & Hrun & Hr & _).
  eexists r, w', _. split; [exact Hrun|]. split; [exact Hr|]. cbn [index cols].
  split; [reflexivity|]. unfold rectangular in Hrect. rewrite Forall_forall in Hrect.
  split; [|split].
  - intros c vs Hc Hne. apply list_elem_of_In, in_map_iff.
    exists (c, vs). split; [reflexivity|]. apply list_elem_of_In, list_elem_of_filter.
    split; [|assumption]. cbn [fst]. intros Hin.
    apply list_elem_of_singleton in Hin. contradiction.
  - unfold rectangular. cbn [cols index]. apply Forall_forall. intros c Hc.
    apply list_elem_of_In, in_map_iff in Hc as (c0 & <- & Hc0). cbn [snd].
    apply length_select_same. apply Hrect.
    apply list_elem_of_In in Hc0. now apply list_elem_of_filter in Hc0 as [_ ?].
  - apply length_select_isin. symmetry. unfold getitem in Hparts.
    destruct (find_col "parts_id" (cols d)) as [vs|] eqn:Hf; [|discriminate].
    injection Hparts as ->. apply find_col_elem_of in Hf.
    now apply (Hrect _ Hf).
Qed.

Lemma format_dataset_rows_witness :
  exists r w' m,
    format_dataset [VStr "A"] (loaded two_parts_rows) = (Ok r, w')
    /\ heap w' !! r = Some m
    /\ index m = select (isin [VStr "A"; VStr "B"; VStr "A"] [VStr "A"]) (index two_parts_frame)
    /\ (forall c vs, (c, vs) ∈ cols two_parts_frame -> c <> "id" ->
          (rename_label statsforecast_names c,
           select (isin [VStr "A"; VStr "B"; VStr "A"] [VStr "A"]) vs) ∈ cols m)
    /\ rectangular m
    /\ length (index m)
       = length (filter (fun v => v ∈ [VStr "A"]) [VStr "A"; VStr "B"; VStr "A"]).
Proof.
  apply (format_dataset_rows (loaded two_parts_rows) 0%nat two_parts_frame).
  - reflexivity.
  - reflexivity.
  - repeat constructor.
  - reflexivity.
  - apply (bool_decide_unpack _). vm_compute. exact I.
  - repeat constructor.
  - repeat constructor.
Defined.

(** X8: when every identifier of the table is asked for, [format_dataset]
    keeps every row: what it returns is the table without the column [id],
    renamed. *)
Theorem format_dataset_all_identifiers (w : world) (l : loc) (d : frame)
    (ids parts : list value) :
  g_df w = Some l -> heap w !! l = Some d ->
  rectangular d -> getitem d "parts_id" = Ok parts -> "id" ∈ labels d ->
  (forall v, v ∈ parts -> v ∈ ids) ->
  exists r w',
    format_dataset ids w = (Ok r, w')
    /\ heap w' !! r =
         Some (rename_cols statsforecast_names
                 (Frame (index d) (filter (fun c => fst c ∉ ["id"]) (cols d)))).
Proof.
  intros Hg Hl Hrect Hparts Hi Hall.
  pose proof (format_frame_cols d ids parts Hparts Hi) as Hm.
  destruct (format_dataset_ok ids w l d _ Hg Hl Hm) as (r & w' & Hrun & Hr & _).
  exists r, w'. split; [exact Hrun|]. rewrite Hr. f_equal.
  unfold rectangular in Hrect. rewrite Forall_forall in Hrect.
  assert (Hmask : Forall (fun b => b = true) (isin parts ids)).
  { unfold isin. apply Forall_forall. intros b Hb.
    apply list_elem_of_In, in_map_iff in Hb as (v & <- & Hv).
    apply bool_decide_eq_true, Hall. now apply list_elem_of_In. }
  assert (Hlen : length (isin parts ids) = length (index d)).
  { unfold isin. rewrite length_map. unfold getitem in Hparts.
    destruct (find_col "parts_id" (cols d)) as [vs|] eqn:Hf; [|discriminate].
    injection Hparts as ->. apply find_col_elem_of in Hf. now apply (Hrect _ Hf). }
  unfold rename_cols. cbn [index cols]. f_equal.
  - apply select_all; [assumption | now rewrite Hlen].
  - apply map_ext_in. intros c Hc. cbn [fst snd]. f_equal.
    apply select_all; [assumption|]. rewrite Hlen. apply Hrect.
    apply list_elem_of_In in Hc. now apply list_elem_of_filter in Hc as [_ ?].
Qed.

Lemma format_dataset_all_identifiers_witness :
  exists r w',
    format_dataset [VStr "B"; VStr "A"] (loaded two_parts_rows) = (Ok r, w')
    /\ heap w' !! r =
         Some (rename_cols statsforecast_names
                 (Frame (index two_parts_frame)
                        (filter (fun c => fst c ∉ ["id"]) (cols two_parts_frame)))).
Proof.
  apply (format_dataset_all_identifiers (loaded two_parts_rows) 0%nat two_parts_frame
           [VStr "B"; VStr "A"] [VStr "A"; VStr "B"; VStr "A"]).
  - reflexivity.
  - reflexivity.
  - repeat constructor.
  - reflexivity.
  - apply (bool_decide_unpack _). vm_compute. exact I.
  - intros v Hv. apply (bool_decide_unpack _).
    repeat (apply elem_of_cons in Hv as [->|Hv]; [vm_compute; exact I|]).
    now apply elem_of_nil in Hv.
Defined.

(** ** The plotter *)

Lemma preserves_trans w1 w2 w3 :
  preserves w1 w2 -> preserves w2 w3 -> preserves w1 w3.
Proof.
  intros (H1 & H2 & H3) (H4 & H5 & H6). repeat split; try congruence.
  intros l f Hl. auto.
Qed.

Lemma bind_preserves {A B} (m : M A) (k : A -> M B) (w : world) :
  preserves w (snd (m w)) ->
  (forall a w', preserves w' (snd (k a w'))) ->
  preserves w (snd (bind m k w)).
Proof.
  intros Hm Hk. unfold bind. destruct (m w) as [[a|e] w']; cbn [snd] in *; [|assumption].
  eapply preserves_trans; [exact Hm | apply Hk].
Qed.

Lemma load_df_preserves w : preserves w (snd (load_df w)).
Proof. unfold load_df. destruct (g_df w); apply preserves_refl. Qed.

Lemma deref_preserves l w : preserves w (snd (deref l w)).
Proof. unfold deref. destruct (heap w !! l); apply preserves_refl. Qed.

Lemma lift_preserves {A} (r : result A) w : preserves w (snd (lift r w)).
Proof. apply preserves_refl. Qed.

Lemma emit_preserves e w : preserves w (snd (emit e w)).
Proof. repeat split; auto. Qed.

Lemma alloc_preserves f w : preserves w (snd (alloc f w)).
Proof.
  repeat split; cbn; auto. intros l d Hl.
  rewrite lookup_insert_ne; [assumption | eapply fresh_ne; eassumption].
Qed.

Lemma rows_of_preserves id w : preserves w (snd (rows_of id w)).
Proof.
  unfold rows_of.
  apply bind_preserves; [apply load_df_preserves|]. intros l w1.
  apply bind_preserves; [apply deref_preserves|]. intros f w2.
  apply bind_preserves; [apply load_df_preserves|]. intros l' w3.
  apply bind_preserves; [apply deref_preserves|]. intros f' w4.
  apply bind_preserves; [apply lift_preserves|]. intros parts w5.
  apply alloc_preserves.
Qed.

Lemma plot_lines_preserves ids ax w : preserves w (snd (plot_lines ids ax w)).
Proof.
  revert ax w. induction ids as [|id ids IH]; intros ax w; [apply preserves_refl|].
  cbn [plot_lines].
  apply bind_preserves; [apply rows_of_preserves|]. intros r w1.
  apply bind_preserves; [apply deref_preserves|]. intros fx w2.
  apply bind_preserves; [apply lift_preserves|]. intros x w3.
  apply bind_preserves; [apply rows_of_preserves|]. intros r' w4.
  apply bind_preserves; [apply deref_preserves|]. intros fy w5.
  apply bind_preserves; [apply lift_preserves|]. intros y w6.
  apply IH.
Qed.

Lemma plot_volume_preserves ids w : preserves w (snd (plot_volume ids w)).
Proof.
  unfold plot_volume.
  apply bind_preserves; [apply plot_lines_preserves|]. intros ax w1.
  apply emit_preserves.
Qed.

(** X9: [plot_volume] only reads: whatever the identifiers, the state of
    [df] and the outcome, every frame that existed before the call is as it
    was, and so is the binding of [df]. *)
Theorem plot_volume_changes_nothing (w : world) (ids : list value) :
  g_df (snd (plot_volume ids w)) = g_df w
  /\ table (snd (plot_volume ids w)) = table w
  /\ (forall l f, heap w !! l = Some f ->
                  heap (snd (plot_volume ids w)) !! l = Some f).
Proof.
  destruct (plot_volume_preserves ids w) as (Hh & Hg & Ht). auto.
Qed.

Lemma getitem_take_rows mask f name vs :
  getitem f name = Ok vs -> getitem (take_rows mask f) name = Ok (select mask vs).
Proof.
  unfold getitem, take_rows. cbn [cols]. rewrite find_col_take_rows.
  destruct (find_col name (cols f)); [|discriminate]. now intros [= ->].
Qed.

Lemma getitem_take_rows_missing mask f name :
  name ∉ labels f -> getitem (take_rows mask f) name = Raise (KeyError name).
Proof.
  intros H. apply getitem_missing. now rewrite labels_take_rows.
Qed.

Lemma rows_of_run id w l d :
  g_df w = Some l -> heap w !! l = Some d ->
  rows_of id w =
    match getitem d "parts_id" with
    | Raise e => (Raise e, w)
    | Ok parts =>
        (Ok (fresh (dom (heap w))),
         World (<[fresh (dom (heap w)) := take_rows (eq_mask parts id) d]> (heap w))
               (g_df w) (table w) (trace w))
    end.
Proof.
  intros Hg Hl. unfold rows_of, bind, load_df, deref, lift, alloc.
  rewrite Hg. cbn [heap g_df table trace]. rewrite Hl, Hg.
  cbn [heap g_df table trace]. rewrite Hl.
  destruct (getitem d "parts_id"); now rewrite ?Hg.
Qed.







(** X11: with [df] bound and at least one identifier to plot,
    [plot_volume] needs the columns [parts_id], [date] and [volume]: the
    first of them that the frame lacks, in this order, is the key error it
    raises, at the first identifier, and then no figure is shown. *)
Theorem plot_volume_key_errors (w : world) (l : loc) (d : frame)
    (id : value) (ids : list value) :
  g_df w = Some l -> heap w !! l = Some d ->
  ("parts_id" ∉ labels d ->
     plot_volume (id :: ids) w = (Raise (KeyError "parts_id"), w))
  /\ ("parts_id" ∈ labels d -> "date" ∉ labels d ->
      fst (plot_volume (id :: ids) w) = Raise (KeyError "date")
      /\ trace (snd (plot_volume (id :: ids) w)) = trace w)
  /\ ("parts_id" ∈ labels d -> "date" ∈ labels d -> "volume" ∉ labels d ->
      fst (plot_volume (id :: ids) w) = Raise (KeyError "volume")
      /\ trace (snd (plot_volume (id :: ids) w)) = trace w).
Proof.
  intros Hg Hl. split; [|split].
  - intros Hp. unfold plot_volume. unfold bind at 1. cbn [plot_lines].
    unfold bind at 1.
    now rewrite (rows_of_run id w l d Hg Hl), (getitem_missing d "parts_id" Hp).
  - intros Hp Hd. destruct (getitem_ok_label d "parts_id" Hp) as [parts Hparts].
    assert (Hrun : exists w', plot_volume (id :: ids) w = (Raise (KeyError "date"), w')
                              /\ trace w' = trace w).
    { unfold plot_volume. unfold bind at 1. cbn [plot_lines].
      unfold bind at 1. rewrite (rows_of_run id w l d Hg Hl), Hparts.
      unfold bind at 1. unfold deref at 1. cbn [heap]. rewrite lookup_insert_eq.
      unfold bind at 1. unfold lift at 1.
      rewrite (getitem_take_rows_missing _ d "date" Hd). eexists. split; reflexivity. }
    destruct Hrun as (w' & -> & Ht). split; [reflexivity | exact Ht].
  - intros Hp Hd Hv. destruct (getitem_ok_label d "parts_id" Hp) as [parts Hparts].
    destruct (getitem_ok_label d "date" Hd) as [dates Hdates].
    assert (Hrun : exists w', plot_volume (id :: ids) w = (Raise (KeyError "volume"), w')
                              /\ trace w' = trace w).
    { unfold plot_volume. unfold bind at 1. cbn [plot_lines].
      unfold bind at 1. rewrite (rows_of_run id w l d Hg Hl), Hparts.
      unfold bind at 1. unfold deref at 1. cbn [heap]. rewrite lookup_insert_eq.
      unfold bind at 1. unfold lift at 1.
      rewrite (getitem_take_rows _ d "date" dates Hdates).
      set (w1 := World _ (g_df w) (table w) (trace w)).
      assert (Hg1 : g_df w1 = Some l) by exact Hg.
      assert (Hl1 : heap w1 !! l = Some d).
      { unfold w1. cbn [heap]. rewrite lookup_insert_ne; [assumption|].
        eapply fresh_ne; eassumption. }
      unfold bind at 1. rewrite (rows_of_run id w1 l d Hg1 Hl1), Hparts.
      unfold bind at 1. unfold deref at 1. cbn [heap]. rewrite lookup_insert_eq.
      unfold bind at 1. unfold lift at 1.
      rewrite (getitem_take_rows_missing _ d "volume" Hv).
      eexists. split; reflexivity. }
    destruct Hrun as (w' & -> & Ht). split; [reflexivity | exact Ht].
Qed.

Lemma plot_volume_key_errors_witness :
  fst (plot_volume [VStr "A"] (loaded undated_rows)) = Raise (KeyError "date")
  /\ trace (snd (plot_volume [VStr "A"] (loaded undated_rows)))
     = trace (loaded undated_rows).
Proof.
  apply (proj1 (proj2 (plot_volume_key_errors (loaded undated_rows) 0%nat undated_frame
                         (VStr "A") [] eq_refl eq_refl))).
  - apply (bool_decide_unpack _). vm_compute. exact I.
  - apply (bool_decide_unpack _). vm_compute. exact I.
Defined.

(** ** The forecast runner *)

Lemma format_dataset_preserves_any ids w : preserves w (snd (format_dataset ids w)).
Proof.
  destruct (g_df w) as [l|] eqn:Hg.
  2:{ rewrite format_dataset_unbound by assumption. apply preserves_refl. }
  destruct (heap w !! l) as [d|] eqn:Hl.
  2:{ rewrite (format_dataset_dangling _ w l) by assumption. apply preserves_refl. }
  now apply (format_dataset_preserves ids w l d).
Qed.

Lemma create_sf_object_preserves r w : preserves w (snd (create_sf_object r w)).
Proof.
  unfold create_sf_object.
  apply bind_preserves; [apply deref_preserves|]. intros f w1. apply preserves_refl.
Qed.

Lemma make_predictions_preserves forecast ids h w :
  preserves w (snd (make_predictions forecast ids h w)).
Proof.
  unfold make_predictions.
  apply bind_preserves; [apply emit_preserves|]. intros [] w1.
  apply bind_preserves; [apply format_dataset_preserves_any|]. intros r w2.
  apply bind_preserves; [apply create_sf_object_preserves|]. intros sf w3.
  apply bind_preserves; [apply emit_preserves|]. intros [] w4.
  apply bind_preserves; [apply lift_preserves|]. intros ff w5.
  apply preserves_refl.
Qed.

Lemma format_dataset_raise ids w l d e :
  g_df w = Some l -> heap w !! l = Some d -> format_frame d ids = Raise e ->
  exists w', format_dataset ids w = (Raise e, w') /\ trace w' = trace w.
Proof.
  intros Hg Hl Hm. pose proof (format_dataset_run ids w l d Hg Hl) as Hrun.
  unfold format_frame in Hm.
  destruct (getitem d "parts_id") as [parts|e'].
  - cbv zeta in Hrun. destruct (drop_cols ["id"] _) as [dropped|e'']; [discriminate|].
    injection Hm as <-. eexists. split; [exact Hrun | reflexivity].
  - injection Hm as <-. eexists. split; [exact Hrun | reflexivity].
Qed.

(** [make_predictions] when the formatting succeeds ... *)
Lemma make_predictions_formatted
    (forecast : stats_forecast -> Z -> result forecast_frame)
    (w : world) (l : loc) (d : frame) (ids : list value) (h : Z) (m : frame) :
  g_df w = Some l -> heap w !! l = Some d -> format_frame d ids = Ok m ->
  exists w',
    make_predictions forecast ids h w =
      (match forecast (croston_on m) h with
       | Ok ff => Ok (to_csv ff)
       | Raise e => Raise e
       end, w')
    /\ trace w' = (trace w ++ [EvSpinner "Making predictions...";
                               EvForecast (croston_on m) h])%list.
Proof.
  intros Hg Hl Hm.
  set (w0 := World (heap w) (g_df w) (table w)
                   (trace w ++ [EvSpinner "Making predictions..."])).
  destruct (format_dataset_ok ids w0 l d m Hg Hl Hm) as (r & w1 & Hrun & Hr & _ & Ht).
  unfold make_predictions. unfold bind at 1. unfold emit at 1.
  unfold bind at 1. fold w0. rewrite Hrun.
  unfold bind at 1. unfold create_sf_object, bind, deref, ret.
  rewrite Hr. unfold emit, lift. cbn [heap g_df table trace].
  fold (croston_on m). rewrite Ht. unfold w0. cbn [trace].
  rewrite <- app_assoc. cbn [app].
  destruct (forecast (croston_on m) h); eexists; split; reflexivity.
Qed.

(** ... and when it raises. *)
Lemma make_predictions_unformatted
    (forecast : stats_forecast -> Z -> result forecast_frame)
    (w : world) (l : loc) (d : frame) (ids : list value) (h : Z) (e : exn) :
  g_df w = Some l -> heap w !! l = Some d -> format_frame d ids = Raise e ->
  exists w',
    make_predictions forecast ids h w = (Raise e, w')
    /\ trace w' = (trace w ++ [EvSpinner "Making predictions..."])%list.
Proof.
  intros Hg Hl Hm.
  set (w0 := World (heap w) (g_df w) (table w)
                   (trace w ++ [EvSpinner "Making predictions..."])).
  destruct (format_dataset_raise ids w0 l d e Hg Hl Hm) as (w1 & Hrun & Ht).
  unfold make_predictions. unfold bind at 1. unfold emit at 1.
  unfold bind at 1. fold w0. rewrite Hrun. exists w1. split; [reflexivity | exact Ht].
Qed.

(** X12: the three ways [make_predictions] ends when [df] is bound.  If
    the formatting raises, that exception is the outcome and the library is
    never called; otherwise the library is called once, on the formatted
    frame, with the one model [CrostonOptimized], monthly-start frequency,
    all workers and the horizon as given; what it raises is raised unchanged,
    and what it returns is returned as CSV text. *)
Theorem make_predictions_outcomes
    (forecast : stats_forecast -> Z -> result forecast_frame)
    (w : world) (l : loc) (d : frame) (ids : list value) (h : Z) :
  g_df w = Some l -> heap w !! l = Some d ->
  exists w',
    match format_frame d ids with
    | Raise e =>
        make_predictions forecast ids h w = (Raise e, w')
        /\ trace w' = (trace w ++ [EvSpinner "Making predictions..."])%list
    | Ok m =>
        make_predictions forecast ids h w =
          (match forecast (croston_on m) h with
           | Ok ff => Ok (to_csv ff)
           | Raise e => Raise e
           end, w')
        /\ trace w' = (trace w ++ [EvSpinner "Making predictions...";
                                   EvForecast (croston_on m) h])%list
    end.
Proof.
  intros Hg Hl. destruct (format_frame d ids) as [m|e] eqn:Hm.
  - destruct (make_predictions_formatted forecast w l d ids h m Hg Hl Hm)
      as (w' & Hrun & Ht).
    exists w'. split; [exact Hrun | exact Ht].
  - destruct (make_predictions_unformatted forecast w l d ids h e Hg Hl Hm)
      as (w' & Hrun & Ht).
    exists w'. split; [exact Hrun | exact Ht].
Qed.

Lemma make_predictions_outcomes_witness :
  exists w',
    match format_frame sales_frame [VStr "A"] with
    | Raise e =>
        make_predictions failing_forecast [VStr "A"] 3 (loaded sales_rows) = (Raise e, w')
        /\ trace w' = (trace (loaded sales_rows)
                       ++ [EvSpinner "Making predictions..."])%list
    | Ok m =>
        make_predictions failing_forecast [VStr "A"] 3 (loaded sales_rows) =
          (match failing_forecast (croston_on m) 3 with
           | Ok ff => Ok (to_csv ff)
           | Raise e => Raise e
           end, w')
        /\ trace w' = (trace (loaded sales_rows)
                       ++ [EvSpinner "Making predictions...";
                           EvForecast (croston_on m) 3])%list
    end.
Proof.
  apply (make_predictions_outcomes failing_forecast (loaded sales_rows) 0%nat
           sales_frame [VStr "A"] 3); reflexivity.
Defined.

(** X13: [make_predictions] changes no frame that existed before the
    call and leaves [df] bound as it was, whatever the identifiers, the
    horizon, the library and the outcome. *)
Theorem make_predictions_changes_nothing
    (forecast : stats_forecast -> Z -> result forecast_frame)
    (ids : list value) (h : Z) (w : world) :
  g_df (snd (make_predictions forecast ids h w)) = g_df w
  /\ table (snd (make_predictions forecast ids h w)) = table w
  /\ (forall l f, heap w !! l = Some f ->
                  heap (snd (make_predictions forecast ids h w)) !! l = Some f).
Proof.
  destruct (make_predictions_preserves forecast ids h w) as (Hh & Hg & Ht). auto.
Qed.

Lemma format_dataset_ext ids1 ids2 w :
  (forall v, v ∈ ids1 <-> v ∈ ids2) -> format_dataset ids1 w = format_dataset ids2 w.
Proof.
  intros Hset. destruct (g_df w) as [l|] eqn:Hg.
  2:{ now rewrite !format_dataset_unbound. }
  destruct (heap w !! l) as [d|] eqn:Hl.
  2:{ now rewrite !(format_dataset_dangling _ w l). }
  pose proof (format_dataset_run ids1 w l d Hg Hl) as H1.
  pose proof (format_dataset_run ids2 w l d Hg Hl) as H2.
  destruct (getitem d "parts_id") as [parts|e]; [|congruence].
  cbv zeta in H1, H2. rewrite (isin_ext parts ids1 ids2 Hset) in H1.
  destruct (drop_cols ["id"] _); congruence.
Qed.

(** X14: the forecast depends on the set of selected identifiers only:
    two lists with the same members, in any order and with any repetitions,
    give the same outcome, the same CSV text and the same call of the
    library. *)
Theorem make_predictions_same_set
    (forecast : stats_forecast -> Z -> result forecast_frame)
    (ids1 ids2 : list value) (h : Z) (w : world) :
  (forall v, v ∈ ids1 <-> v ∈ ids2) ->
  make_predictions forecast ids1 h w = make_predictions forecast ids2 h w.
Proof.
  intros Hset. unfold make_predictions, bind, emit.
  now rewrite (format_dataset_ext ids1 ids2 _ Hset).
Qed.

Lemma make_predictions_same_set_witness :
  make_predictions flat_forecast [VStr "A"; VStr "B"; VStr "A"] 2 (loaded two_parts_rows)
  = make_predictions flat_forecast [VStr "B"; VStr "A"] 2 (loaded two_parts_rows).
Proof.
  apply (make_predictions_same_set flat_forecast).
  intros v. rewrite !elem_of_cons, !elem_of_nil. tauto.
Defined.

(** ** The events of a computation *)

Lemma emits_bind {A B} (P : event -> Prop) (m : M A) (k : A -> M B) :
  emits P m -> (forall a, emits P (k a)) -> emits P (bind m k).
Proof.
  intros Hm Hk w. unfold bind. destruct (Hm w) as (evs & Ht & Hevs).
  destruct (m w) as [[a|e] w1]; cbn [snd] in *.
  - destruct (Hk a w1) as (evs' & Ht' & Hevs'). exists (evs ++ evs')%list.
    split; [now rewrite Ht', Ht, app_assoc | now apply Forall_app].
  - now exists evs.
Qed.

Lemma emits_emit (P : event -> Prop) (e : event) : P e -> emits P (emit e).
Proof. intros He w. exists [e]. split; [reflexivity | now repeat constructor]. Qed.

Lemma emits_silent {A} (P : event -> Prop) (m : M A) :
  (forall w, trace (snd (m w)) = trace w) -> emits P m.
Proof. intros H w. exists []. split; [now rewrite H, app_nil_r | constructor]. Qed.

Lemma emits_ret {A} (P : event -> Prop) (a : A) : emits P (ret a).
Proof. now apply emits_silent. Qed.

Lemma emits_create_dataframe (P : event -> Prop) :
  P (EvQuery "car_parts_monthly_sales" "*") -> emits P create_dataframe.
Proof.
  intros HP w. exists [EvQuery "car_parts_monthly_sales" "*"].
  split; [|now repeat constructor]. rewrite create_dataframe_run.
  destruct (getitem _ "volume") as [volume|e]; [|reflexivity].
  destruct (astype_int volume); reflexivity.
Qed.

Lemma emits_plot_volume (P : event -> Prop) ids :
  (forall fig, P (EvPyplot fig)) -> emits P (plot_volume ids).
Proof.
  intros HP. unfold plot_volume. apply emits_bind.
  - apply emits_silent. intros w. apply plot_lines_trace.
  - intros ax. now apply emits_emit.
Qed.

Lemma emits_make_predictions (P : event -> Prop) forecast ids h :
  P (EvSpinner "Making predictions...") -> (forall sf, P (EvForecast sf h)) ->
  emits P (make_predictions forecast ids h).
Proof.
  intros Hs Hf. unfold make_predictions.
  apply emits_bind; [now apply emits_emit|]. intros [].
  apply emits_bind; [apply emits_silent, format_dataset_trace|]. intros r.
  apply emits_bind.
  { apply emits_silent. intros w. unfold create_sf_object, bind, deref, ret.
    now destruct (heap w !! r). }
  intros sf. apply emits_bind; [now apply emits_emit|]. intros [].
  apply emits_bind; [now apply emits_silent|]. intros ff. apply emits_ret.
Qed.

(** ** More on a run of the script *)

(** X15: as long as the button is not pressed, a run never reaches the
    forecast runner: whatever the table, the selection and the slider, the
    trace gets no spinner "Making predictions...", no call of the library and
    no download. *)
Theorem main_without_click
    (forecast : stats_forecast -> Z -> result forecast_frame)
    (u : session) (w : world) :
  clicked u = false ->
  exists evs,
    trace (snd (main forecast u w)) = (trace w ++ evs)%list
    /\ Forall (fun e => prediction_event e = false) evs.
Proof.
  intros Hclick. revert w.
  change (emits (fun e => prediction_event e = false) (main forecast u)).
  unfold main.
  apply emits_bind; [now apply emits_emit|]. intros [].
  apply emits_bind; [now apply emits_create_dataframe|]. intros d.
  apply emits_bind; [now apply emits_silent|]. intros [].
  apply emits_bind; [now apply emits_emit|]. intros [].
  apply emits_bind; [apply emits_silent, load_df_trace|]. intros l.
  apply emits_bind; [apply emits_silent, deref_trace|]. intros f.
  apply emits_bind; [now apply emits_silent|]. intros parts. cbv zeta.
  apply emits_bind; [now apply emits_emit|]. intros [].
  apply emits_bind; [now apply emits_plot_volume|]. intros [].
  apply emits_bind; [now apply emits_emit|]. intros [].
  unfold forecast_panel. destruct (_ =? _); [now apply emits_emit|].
  apply emits_bind; [now apply emits_emit|]. intros []. cbv zeta.
  apply emits_bind; [now apply emits_emit|]. intros [].
  rewrite Hclick. apply emits_ret.
Qed.

Lemma main_without_click_witness :
  exists evs,
    trace (snd (main flat_forecast (Session [VStr "A"] 3 false) (fresh_world sales_rows)))
    = (trace (fresh_world sales_rows) ++ evs)%list
    /\ Forall (fun e => prediction_event e = false) evs.
Proof.
  apply (main_without_click flat_forecast (Session [VStr "A"] 3 false)
           (fresh_world sales_rows)).
  reflexivity.
Defined.



Lemma forecast_panel_preserves forecast sel u w :
  preserves w (snd (forecast_panel forecast sel u w)).
Proof.
  unfold forecast_panel. destruct (_ =? _); [apply emit_preserves|].
  apply bind_preserves; [apply emit_preserves|]. intros [] w1. cbv zeta.
  apply bind_preserves; [apply emit_preserves|]. intros [] w2.
  destruct (clicked u); [|apply preserves_refl].
  apply bind_preserves; [apply make_predictions_preserves|]. intros csv w3.
  apply emit_preserves.
Qed.

Lemma after_select_preserves forecast u opts sel w :
  preserves w
    (snd ((emit (EvMultiselect "Select product ID" opts) ;;
           plot_volume sel ;;
           emit (EvExpander "Forecast") ;;
           forecast_panel forecast sel u) w)).
Proof.
  apply bind_preserves; [apply emit_preserves|]. intros [] w1.
  apply bind_preserves; [apply plot_volume_preserves|]. intros [] w2.
  apply bind_preserves; [apply emit_preserves|]. intros [] w3.
  apply forecast_panel_preserves.
Qed.

(** X17: once the table is loaded, the frame bound to [df] is the
    converted one for the rest of the run and at its end, however the run
    goes on: neither the plot nor the forecast changes it or rebinds [df]. *)
Theorem main_keeps_sales_frame
    (forecast : stats_forecast -> Z -> result forecast_frame)
    (u : session) (w : world) (ints : list value) :
  "volume" ∈ all_keys (table w) ->
  astype_int (volume_cells (table w)) = Ok ints ->
  g_df (snd (main forecast u w)) = Some (fresh (dom (heap w)))
  /\ heap (snd (main forecast u w)) !! fresh (dom (heap w))
     = Some (setitem (json_normalize (table w)) "volume" ints)
  /\ table (snd (main forecast u w)) = table w.
Proof.
  intros Hin Hast. rewrite main_cases, getitem_json_normalize_volume.
  rewrite decide_True by assumption. rewrite Hast.
  assert (Hat : heap (at_select w ints) !! fresh (dom (heap w))
                = Some (setitem (json_normalize (table w)) "volume" ints)).
  { unfold at_select. cbn [heap]. apply lookup_insert_eq. }
  destruct (getitem _ "parts_id") as [parts|e]; [|now repeat split].
  destruct (after_select_preserves forecast u (unique parts)
              (multiselect (unique parts) u) (at_select w ints)) as (Hh & Hg & Ht).
  split; [exact Hg|]. split; [now apply Hh | exact Ht].
Qed.

Lemma main_keeps_sales_frame_witness :
  g_df (snd (main flat_forecast (Session [VStr "A"] 3 true) (fresh_world sales_rows)))
  = Some (fresh (dom (heap (fresh_world sales_rows))))
  /\ heap (snd (main flat_forecast (Session [VStr "A"] 3 true) (fresh_world sales_rows)))
       !! fresh (dom (heap (fresh_world sales_rows)))
     = Some (setitem (json_normalize (table (fresh_world sales_rows))) "volume"
               [VInt 5; VInt 3])
  /\ table (snd (main flat_forecast (Session [VStr "A"] 3 true) (fresh_world sales_rows)))
     = table (fresh_world sales_rows).
Proof.
  apply (main_keeps_sales_frame flat_forecast (Session [VStr "A"] 3 true)
           (fresh_world sales_rows)).
  - apply (bool_decide_unpack _). vm_compute. exact I.
  - reflexivity.
Defined.

Lemma emits_forecast_panel (P : event -> Prop) forecast sel u :
  P (EvWarning "Select at least one product ID to forecast") ->
  P (EvSlider "Horizon" 1 12 1) -> P (EvButton "Forecast" "primary") ->
  P (EvSpinner "Making predictions...") -> (forall sf h, P (EvForecast sf h)) ->
  (forall csv, P (EvDownload "Download Prediction" csv "prediction.csv" "text/csv")) ->
  emits P (forecast_panel forecast sel u).
Proof.
  intros Hw Hs Hb Hsp Hf Hd. unfold forecast_panel.
  destruct (_ =? _); [now apply emits_emit|].
  apply emits_bind; [now apply emits_emit|]. intros []. cbv zeta.
  apply emits_bind; [now apply emits_emit|]. intros [].
  destruct (clicked u); [|apply emits_ret].
  apply emits_bind; [now apply emits_make_predictions|]. intros csv.
  now apply emits_emit.
Qed.

Lemma elem_of_key_cells (name : string) (rows : list record) (v : value) :
  v ∈ key_cells name rows <-> exists r, r ∈ rows /\ default VNaN (field name r) = v.
Proof.
  unfold key_cells. rewrite list_elem_of_In, in_map_iff.
  split; intros (r & H1 & H2); exists r.
  - split; [now apply list_elem_of_In | assumption].
  - split; [assumption | now apply list_elem_of_In].
Qed.

(** X18: on a table whose records all have an integer or a text as
    [parts_id], the multiselect of a run offers the identifiers of the table:
    every multiselect event of the run carries the options [offered], which
    has each identifier once, and an identifier is offered exactly when some
    record of the table has it in its field [parts_id]. *)
Theorem main_offers_table_identifiers
    (forecast : stats_forecast -> Z -> result forecast_frame)
    (u : session) (w : world) :
  Forall (fun r => exists v, field "parts_id" r = Some v /\ identifier v = true)
         (table w) ->
  (exists evs,
     trace (snd (main forecast u w)) = (trace w ++ evs)%list
     /\ Forall (offers (offered w)) evs)
  /\ NoDup (offered w)
  /\ (forall v, v ∈ offered w <->
        exists r, r ∈ table w /\ field "parts_id" r = Some v).
Proof.
  intros Hids. split; [|split].
  - rewrite main_cases. unfold offered.
    assert (Hno : forall opts e, is_multiselect e = false -> offers opts e).
    { intros opts e He label options ->. discriminate. }
    destruct (getitem _ "volume") as [volume|e].
    2:{ eexists. split; [reflexivity|].
        repeat (constructor; [now apply Hno|]). constructor. }
    destruct (astype_int volume) as [ints|e].
    2:{ eexists. split; [reflexivity|].
        repeat (constructor; [now apply Hno|]). constructor. }
    destruct (getitem _ "parts_id") as [parts|e] eqn:Hparts.
    2:{ eexists. split; [reflexivity|].
        repeat (constructor; [now apply Hno|]). constructor. }
    assert (Hoff : offered w = unique parts) by (unfold offered; now rewrite Hparts).
    rewrite <- Hoff in *.
    assert (Hk : emits (offers (offered w))
              (emit (EvMultiselect "Select product ID" (offered w)) ;;
               plot_volume (multiselect (offered w) u) ;;
               emit (EvExpander "Forecast") ;;
               forecast_panel forecast (multiselect (offered w) u) u)).
    { apply emits_bind.
      { apply emits_emit. intros label options [= <- <-]. now split. }
      intros []. apply emits_bind.
      { apply emits_plot_volume. intros fig. now apply Hno. }
      intros []. apply emits_bind; [apply emits_emit; now apply Hno|]. intros [].
      apply emits_forecast_panel; intros; now apply Hno. }
    destruct (Hk (at_select w ints)) as (evs & Ht & Hevs).
    exists ([EvTitle "Forecast product demand"; EvQuery "car_parts_monthly_sales" "*";
             EvSubheader "Select a product"] ++ evs)%list.
    split.
    + rewrite Ht. unfold at_select. cbn [trace]. now rewrite <- app_assoc.
    + apply Forall_app. split; [|assumption].
      repeat (constructor; [now apply Hno|]). constructor.
  - unfold offered. destruct (getitem _ "parts_id"); [apply first_seen_NoDup | constructor].
  - intros v. unfold offered. rewrite getitem_json_normalize.
    rewrite Forall_forall in Hids.
    destruct (decide ("parts_id" ∈ all_keys (table w))) as [Hin|Hnin].
    + rewrite elem_of_unique, elem_of_key_cells.
      split; intros (r & Hr & Hv); exists r; (split; [assumption|]).
      * destruct (Hids r Hr) as (v' & Hv' & _). rewrite Hv' in Hv. now subst.
      * now rewrite Hv.
    + rewrite elem_of_nil. split; [tauto|]. intros (r & Hr & Hv).
      apply Hnin, elem_of_all_keys. exists r. split; [assumption|].
      eapply field_Some_key; eassumption.
Qed.

Lemma main_offers_table_identifiers_witness :
  (exists evs,
     trace (snd (main flat_forecast (Session [VStr "A"] 3 false)
                   (fresh_world two_parts_rows)))
     = (trace (fresh_world two_parts_rows) ++ evs)%list
     /\ Forall (offers (offered (fresh_world two_parts_rows))) evs)
  /\ NoDup (offered (fresh_world two_parts_rows))
  /\ (forall v, v ∈ offered (fresh_world two_parts_rows) <->
        exists r, r ∈ table (fresh_world two_parts_rows)
                  /\ field "parts_id" r = Some v).
Proof.
  apply (main_offers_table_identifiers flat_forecast (Session [VStr "A"] 3 false)
           (fresh_world two_parts_rows)).
  repeat constructor; eexists; split; reflexivity.
Defined.

Lemma panel_call_other u d sel e :
  (forall sf h, e <> EvForecast sf h) -> panel_call u d sel e.
Proof. intros H sf h He. now apply H in He. Qed.

Lemma forecast_panel_calls forecast u sel w l d :
  g_df w = Some l -> heap w !! l = Some d ->
  exists evs,
    trace (snd (forecast_panel forecast sel u w)) = (trace w ++ evs)%list
    /\ Forall (panel_call u d sel) evs.
Proof.
  intros Hg Hl. unfold forecast_panel. destruct sel as [|i sel].
  - exists [EvWarning "Select at least one product ID to forecast"].
    split; [reflexivity|]. constructor; [|constructor].
    apply panel_call_other. discriminate.
  - change (Z.of_nat (length (i :: sel)) =? 0) with false. cbv iota zeta.
    unfold bind at 1. unfold emit at 1. unfold bind at 1. unfold emit at 1.
    cbn [heap g_df table trace].
    set (w2 := World (heap w) (g_df w) (table w) _).
    destruct (clicked u).
    + unfold bind.
      destruct (format_frame d (i :: sel)) as [m|e] eqn:Hm;
        [destruct (make_predictions_formatted forecast w2 l d (i :: sel)
                     (slider 1 12 u) m Hg Hl Hm) as (w3 & Hrun & Ht)
        |destruct (make_predictions_unformatted forecast w2 l d (i :: sel)
                     (slider 1 12 u) e Hg Hl Hm) as (w3 & Hrun & Ht)].
      * rewrite Hrun.
        assert (Hcall : panel_call u d (i :: sel) (EvForecast (croston_on m) (slider 1 12 u))).
        { intros sf h [= <- <-]. split; [reflexivity|]. split; [discriminate|].
          now exists m. }
        destruct (forecast (croston_on m) (slider 1 12 u)) as [ff|e].
        -- eexists [_; _; _; _; _]. unfold emit. cbn [snd trace]. rewrite Ht.
           unfold w2. cbn [trace]. rewrite <- !app_assoc. split; [reflexivity|].
           repeat (constructor; [first [exact Hcall | apply panel_call_other; discriminate]|]).
           constructor.
        -- eexists [_; _; _; _]. cbn [snd]. rewrite Ht.
           unfold w2. cbn [trace]. rewrite <- !app_assoc. split; [reflexivity|].
           repeat (constructor; [first [exact Hcall | apply panel_call_other; discriminate]|]).
           constructor.
      * rewrite Hrun. eexists [_; _; _]. cbn [snd]. rewrite Ht.
        unfold w2. cbn [trace]. rewrite <- !app_assoc. split; [reflexivity|].
        repeat (constructor; [apply panel_call_other; discriminate|]). constructor.
    + eexists [_; _]. unfold ret. cbn [snd]. unfold w2. cbn [trace].
      rewrite <- !app_assoc. split; [reflexivity|].
      repeat (constructor; [apply panel_call_other; discriminate|]). constructor.
Qed.

Lemma after_select_calls forecast u opts sel w l d :
  g_df w = Some l -> heap w !! l = Some d ->
  exists evs,
    trace (snd ((emit (EvMultiselect "Select product ID" opts) ;;
                 plot_volume sel ;;
                 emit (EvExpander "Forecast") ;;
                 forecast_panel forecast sel u) w)) = (trace w ++ evs)%list
    /\ Forall (panel_call u d sel) evs.
Proof.
  intros Hg Hl. unfold bind at 1. unfold emit at 1.
  set (w1 := World (heap w) (g_df w) (table w) _).
  assert (Hplot : emits (panel_call u d sel) (plot_volume sel)).
  { apply emits_plot_volume. intros fig. apply panel_call_other. discriminate. }
  destruct (Hplot w1) as (evs1 & Ht1 & He1).
  destruct (plot_volume_preserves sel w1) as (Hh & Hg1 & _).
  unfold bind at 1. destruct (plot_volume sel w1) as [[[]|e] w2]; cbn [snd] in *.
  - unfold bind at 1. unfold emit at 1.
    set (w3 := World (heap w2) (g_df w2) (table w2) _).
    assert (Hg3 : g_df w3 = Some l).
    { unfold w3. cbn [g_df]. rewrite Hg1. unfold w1. cbn [g_df]. exact Hg. }
    assert (Hl3 : heap w3 !! l = Some d).
    { unfold w3. cbn [heap]. apply Hh. unfold w1. cbn [heap]. exact Hl. }
    destruct (forecast_panel_calls forecast u sel w3 l d Hg3 Hl3) as (evs3 & Ht3 & He3).
    exists ([EvMultiselect "Select product ID" opts] ++ evs1
            ++ [EvExpander "Forecast"] ++ evs3)%list.
    split.
    + rewrite Ht3. unfold w3. cbn [trace]. rewrite Ht1. unfold w1. cbn [trace].
      now rewrite <- !app_assoc.
    + repeat (apply Forall_app; split); try assumption;
        (constructor; [apply panel_call_other; discriminate | constructor]).
  - exists ([EvMultiselect "Select product ID" opts] ++ evs1)%list. split.
    + rewrite Ht1. unfold w1. cbn [trace]. now rewrite <- app_assoc.
    + apply Forall_app. split; [|assumption].
      constructor; [apply panel_call_other; discriminate | constructor].
Qed.

Lemma elem_of_multiselect (opts : list value) (u : session) (v : value) :
  v ∈ multiselect opts u -> v ∈ opts.
Proof. unfold multiselect. rewrite list_elem_of_filter. tauto. Qed.

Lemma slider_range lo hi u : lo <= hi -> lo <= slider lo hi u <= hi.
Proof. unfold slider. lia. Qed.

(** X19: every call of the library in a run of the script is made with
    the horizon of the slider, which lies between 1 and 12, with the one
    model [CrostonOptimized], monthly-start frequency and all workers, on a
    frame whose series are exactly the selected identifiers, of which there
    is one at least (on a table without a field [unique_id] of its own). *)
Theorem main_library_calls
    (forecast : stats_forecast -> Z -> result forecast_frame)
    (u : session) (w : world) :
  "unique_id" ∉ all_keys (table w) ->
  exists evs,
    trace (snd (main forecast u w)) = (trace w ++ evs)%list
    /\ Forall (library_call u (multiselect (offered w) u)) evs.
Proof.
  intros Hu. rewrite main_cases. unfold offered.
  assert (Hno : forall sel e, (forall sf h, e <> EvForecast sf h) -> library_call u sel e).
  { intros sel e H sf h He. now apply H in He. }
  pose proof (getitem_json_normalize_volume (table w)) as Hvol.
  destruct (getitem _ "volume") as [volume|e].
  2:{ eexists. split; [reflexivity|].
      repeat (constructor; [apply Hno; discriminate|]). constructor. }
  destruct (astype_int volume) as [ints|e].
  2:{ eexists. split; [reflexivity|].
      repeat (constructor; [apply Hno; discriminate|]). constructor. }
  destruct (getitem _ "parts_id") as [parts|e] eqn:Hparts.
  2:{ eexists. split; [reflexivity|].
      repeat (constructor; [apply Hno; discriminate|]). constructor. }
  assert (Hin : "volume" ∈ all_keys (table w)).
  { destruct (decide ("volume" ∈ all_keys (table w))); [assumption | discriminate]. }
  set (f := setitem (json_normalize (table w)) "volume" ints).
  assert (Hf : heap (at_select w ints) !! fresh (dom (heap w)) = Some f).
  { unfold at_select. cbn [heap]. apply lookup_insert_eq. }
  destruct (after_select_calls forecast u (unique parts) (multiselect (unique parts) u)
              (at_select w ints) _ f eq_refl Hf) as (evs & Ht & Hevs).
  exists ([EvTitle "Forecast product demand"; EvQuery "car_parts_monthly_sales" "*";
           EvSubheader "Select a product"] ++ evs)%list.
  split.
  { rewrite Ht. unfold at_select. cbn [trace]. now rewrite <- app_assoc. }
  apply Forall_app. split.
  { repeat (constructor; [apply Hno; discriminate|]). constructor. }
  eapply Forall_impl; [exact Hevs|]. intros e Hcall sf h He.
  destruct (Hcall sf h He) as (Hh & Hsel & m & Hm & ->).
  assert (Hfp : getitem f "parts_id" = Ok parts).
  { unfold f. now rewrite getitem_setitem_ne by discriminate. }
  assert (Hfu : "unique_id" ∉ labels f).
  { unfold f, labels, setitem. cbn [cols]. rewrite labels_set_col.
    - fold (labels (json_normalize (table w))). now rewrite labels_json_normalize.
    - fold (labels (json_normalize (table w))). now rewrite labels_json_normalize. }
  destruct (format_frame_unique_id f _ parts m Hfp Hfu Hm) as [Hus _].
  split; [exact Hh|]. split; [rewrite Hh; now apply slider_range|].
  split; [reflexivity|]. split; [reflexivity|]. split; [reflexivity|].
  eexists. split; [exact Hus|].
  assert (Hmem : forall v, v ∈ select (isin parts (multiselect (unique parts) u)) parts
                           <-> v ∈ multiselect (unique parts) u).
  { intros v. unfold isin. rewrite elem_of_select_map, bool_decide_eq_true.
    split; [tauto|]. intros Hv. split; [|assumption].
    exact (proj1 (elem_of_unique v parts) (elem_of_multiselect _ _ _ Hv)). }
  split; [|exact Hmem].
  destruct (multiselect (unique parts) u) as [|v0 sel0] eqn:Hs; [contradiction|].
  intros Hnil. assert (Hv0 : v0 ∈ v0 :: sel0) by (apply elem_of_cons; now left).
  apply Hmem in Hv0. rewrite Hnil in Hv0. now apply elem_of_nil in Hv0.
Qed.

Lemma main_library_calls_witness :
  exists evs,
    trace (snd (main flat_forecast (Session [VStr "A"] 30 true) (fresh_world two_parts_rows)))
    = (trace (fresh_world two_parts_rows) ++ evs)%list
    /\ Forall (library_call (Session [VStr "A"] 30 true)
                 (multiselect (offered (fresh_world two_parts_rows))
                              (Session [VStr "A"] 30 true))) evs.
Proof.
  apply (main_library_calls flat_forecast (Session [VStr "A"] 30 true)
           (fresh_world two_parts_rows)).
  apply (bool_decide_unpack _). vm_compute. exact I.
Defined.

(** ** Volumes that arrive as decimal text *)

Lemma scan_uint (d : Decimal.uint) : forall acc n,
  PyInt.scan_digits (uint_chars d) acc n true
  = Some (uint_value d acc, (n + Decimal.nb_digits d)%nat, []).
Proof.
  unfold uint_chars.
  induction d; intros acc n; cbn [NilEmpty.string_of_uint list_ascii_of_string
    PyInt.scan_digits uint_value Decimal.nb_digits];
    [now rewrite Nat.add_0_r|..];
    (change (PyInt.digit_of _) with (Some 0) ||
     change (PyInt.digit_of _) with (Some 1) ||
     change (PyInt.digit_of _) with (Some 2) ||
     change (PyInt.digit_of _) with (Some 3) ||
     change (PyInt.digit_of _) with (Some 4) ||
     change (PyInt.digit_of _) with (Some 5) ||
     change (PyInt.digit_of _) with (Some 6) ||
     change (PyInt.digit_of _) with (Some 7) ||
     change (PyInt.digit_of _) with (Some 8) ||
     change (PyInt.digit_of _) with (Some 9));
    cbv iota; rewrite IHd; now rewrite Nat.add_succ_r.
Qed.

Lemma scan_uint_start (d : Decimal.uint) acc n :
  d <> Decimal.Nil ->
  PyInt.scan_digits (uint_chars d) acc n false
  = PyInt.scan_digits (uint_chars d) acc n true.
Proof. destruct d; [contradiction|..]; reflexivity. Qed.

Lemma skip_spaces_uint (d : Decimal.uint) :
  PyInt.skip_spaces (uint_chars d) = uint_chars d.
Proof. destruct d; reflexivity. Qed.

Lemma parse_sign_uint (d : Decimal.uint) :
  PyInt.parse_sign (uint_chars d) = (1, uint_chars d).
Proof. destruct d; reflexivity. Qed.

Lemma of_uint_acc_value (d : Decimal.uint) : forall acc,
  Z.pos (Pos.of_uint_acc d acc) = uint_value d (Z.pos acc).
Proof.
  induction d; intros acc; cbn [Pos.of_uint_acc uint_value]; [reflexivity|..];
    rewrite IHd; f_equal; lia.
Qed.

Lemma of_uint_value (d : Decimal.uint) : Z.of_N (Pos.of_uint d) = uint_value d 0.
Proof.
  induction d; cbn [Pos.of_uint uint_value]; [reflexivity | exact IHd |..];
    cbn [Z.of_N]; now rewrite of_uint_acc_value.
Qed.

Lemma to_uint_value (p : positive) : uint_value (Pos.to_uint p) 0 = Z.pos p.
Proof.
  rewrite <- of_uint_value, DecimalPos.Unsigned.of_to. reflexivity.
Qed.

Lemma uint_value_lower (d : Decimal.uint) : forall acc,
  0 <= acc -> acc * 10 ^ Z.of_nat (Decimal.nb_digits d) <= uint_value d acc.
Proof.
  induction d; intros acc Hacc; cbn [uint_value Decimal.nb_digits];
    [rewrite Z.pow_0_r; lia|..];
    rewrite Nat2Z.inj_succ, Z.pow_succ_r by lia;
    (etransitivity; [|apply IHd; lia]);
    (assert (Hp : 0 <= 10 ^ Z.of_nat (Decimal.nb_digits d)) by (apply Z.pow_nonneg; lia));
    nia.
Qed.

Lemma to_uint_head (p : positive) d' : Pos.to_uint p <> Decimal.D0 d'.
Proof.
  intros H.
  assert (Hn : Decimal.unorm (Pos.to_uint p) = Pos.to_uint p).
  { rewrite <- DecimalPos.Unsigned.to_of, DecimalPos.Unsigned.of_to. reflexivity. }
  rewrite H in Hn. unfold Decimal.unorm in Hn. cbn [Decimal.nzhead] in Hn.
  destruct (Decimal.nzhead d') eqn:Hz; try discriminate.
  - injection Hn as <-. now apply (DecimalPos.Unsigned.to_uint_nonzero p).
  - now apply DecimalFacts.nzhead_nonzero in Hz.
Qed.

Lemma to_uint_digits (p : positive) :
  Z.pos p <= 2 ^ 63 -> (Decimal.nb_digits (Pos.to_uint p) <= 19)%nat.
Proof.
  intros Hp. pose proof (to_uint_value p) as Hv.
  pose proof (to_uint_head p) as Hh.
  destruct (Pos.to_uint p) as [|d|d|d|d|d|d|d|d|d|d] eqn:Hd;
    [cbn; lia | now destruct (Hh d) |..];
    cbn [uint_value Decimal.nb_digits] in *;
    (destruct (le_lt_dec (Decimal.nb_digits d) 18) as [Hle|Hgt]; [lia|]);
    exfalso;
    match type of Hv with uint_value d ?k = _ =>
      pose proof (uint_value_lower d k ltac:(lia)) as Hlow end;
    (assert (Hpow : 10 ^ 19 <= 10 ^ Z.of_nat (Decimal.nb_digits d))
       by (apply Z.pow_le_mono_r; lia));
    (assert (H19 : 2 ^ 63 < 10 ^ 19) by reflexivity);
    nia.
Qed.

Lemma int_of_string_pos (p : positive) :
  Z.pos p <= 2 ^ 63 ->
  PyInt.int_of_string (NilZero.string_of_uint (Pos.to_uint p)) = Some (Z.pos p)
  /\ PyInt.int_of_string (String "-" (NilZero.string_of_uint (Pos.to_uint p)))
     = Some (Z.neg p).
Proof.
  intros Hp.
  assert (Hnil : Pos.to_uint p <> Decimal.Nil) by apply DecimalPos.Unsigned.to_uint_nonnil.
  assert (Hs : NilZero.string_of_uint (Pos.to_uint p)
               = NilEmpty.string_of_uint (Pos.to_uint p)).
  { unfold NilZero.string_of_uint. now destruct (Pos.to_uint p). }
  rewrite Hs.
  assert (Hscan : PyInt.scan_digits (uint_chars (Pos.to_uint p)) 0 0 false
                  = Some (Z.pos p, Decimal.nb_digits (Pos.to_uint p), [])).
  { rewrite scan_uint_start by assumption. rewrite scan_uint, to_uint_value.
    reflexivity. }
  assert (Hlen : (Decimal.nb_digits (Pos.to_uint p) <=? PyInt.max_str_digits)%nat = true).
  { apply Nat.leb_le. pose proof (to_uint_digits p Hp). unfold PyInt.max_str_digits. lia. }
  split.
  - unfold PyInt.int_of_string. fold (uint_chars (Pos.to_uint p)).
    rewrite skip_spaces_uint, parse_sign_uint, Hscan. cbn [PyInt.skip_spaces].
    rewrite Hlen. reflexivity.
  - unfold PyInt.int_of_string. cbn [list_ascii_of_string].
    fold (uint_chars (Pos.to_uint p)).
    change (PyInt.skip_spaces ("-"%char :: uint_chars (Pos.to_uint p)))
      with ("-"%char :: uint_chars (Pos.to_uint p)).
    change (PyInt.parse_sign ("-"%char :: uint_chars (Pos.to_uint p)))
      with (-1, uint_chars (Pos.to_uint p)).
    cbv beta iota. rewrite Hscan. cbn [PyInt.skip_spaces]. rewrite Hlen. reflexivity.
Qed.

Lemma to_int64_decimal_text (z : Z) :
  in_int64 z = true -> to_int64 (VStr (show_value (VInt z))) = Ok z.
Proof.
  intros Hr. cbn [to_int64 show_value].
  assert (Hp : PyInt.int_of_string (NilZero.string_of_int (Z.to_int z)) = Some z).
  { unfold in_int64, int64_min, int64_max in Hr.
    apply andb_true_iff in Hr as [H1 H2]. apply Z.leb_le in H1, H2.
    destruct z as [|p|p]; [reflexivity|..]; cbn [Z.to_int NilZero.string_of_int].
    - apply int_of_string_pos. lia.
    - apply int_of_string_pos. lia. }
  now rewrite Hp, Hr.
Qed.

Lemma astype_int_decimal_text (zs : list Z) :
  Forall (fun z => in_int64 z = true) zs ->
  astype_int (map (fun z => VStr (show_value (VInt z))) zs) = Ok (map VInt zs).
Proof.
  intros Hzs. apply astype_int_spec. left.
  induction Hzs as [|z zs Hz _ IH]; cbn [map]; constructor; [|assumption].
  exists z. split; [|reflexivity]. now apply to_int64_spec, to_int64_decimal_text.
Qed.

(** X20: volumes that arrive as the decimal text of int64 integers (as
    [to_csv] or [str] writes them: digits, a minus sign for negative ones)
    are converted to exactly those integers. *)
Theorem create_dataframe_decimal_text (w : world) (zs : list Z) :
  "volume" ∈ all_keys (table w) ->
  volume_cells (table w) = map (fun z => VStr (show_value (VInt z))) zs ->
  Forall (fun z => in_int64 z = true) zs ->
  exists r w' f,
    create_dataframe w = (Ok r, w') /\ heap w' !! r = Some f
    /\ getitem f "volume" = Ok (map VInt zs).
Proof.
  intros Hin Hcells Hzs. rewrite create_dataframe_run, getitem_json_normalize_volume.
  rewrite decide_True by assumption.
  rewrite Hcells, (astype_int_decimal_text zs Hzs).
  eexists _, _, _. split; [reflexivity|]. cbn [heap].
  split; [apply lookup_insert_eq|].
  unfold getitem, setitem. cbn [cols]. now rewrite find_col_set_col.
Qed.

Lemma create_dataframe_decimal_text_witness :
  exists r w' f,
    create_dataframe (fresh_world sales_rows) = (Ok r, w')
    /\ heap w' !! r = Some f
    /\ getitem f "volume" = Ok (map VInt [5; 3]).
Proof.
  apply (create_dataframe_decimal_text (fresh_world sales_rows) [5; 3]).
  - apply (bool_decide_unpack _). vm_compute. exact I.
  - reflexivity.
  - repeat constructor.
Defined.

(** ** The CSV text of a forecast *)

Lemma data_rows_no_line_feed (idx : list value) : forall cs : list (list string),
  Forall (fun i => Csv.line_feeds (show_value i) = 0%nat) idx ->
  Forall (Forall (fun x => Csv.line_feeds x = 0%nat)) cs ->
  Forall (Forall (fun x => Csv.line_feeds x = 0%nat)) (data_rows idx cs).
Proof.
  induction idx as [|i idx IH]; intros cs Hidx Hcs; [constructor|].
  inversion Hidx as [|? ? Hi Hidx']; subst. cbn [data_rows]. constructor.
  - constructor; [exact Hi|]. apply Forall_forall. intros x Hx.
    apply list_elem_of_In, in_map_iff in Hx as (c & <- & Hc).
    rewrite Forall_forall in Hcs. apply list_elem_of_In in Hc.
    specialize (Hcs c Hc). destruct c as [|y c]; [reflexivity|].
    now inversion Hcs.
  - apply IH; [assumption|]. apply Forall_forall. intros c Hc.
    apply list_elem_of_In, in_map_iff in Hc as (c0 & <- & Hc0).
    rewrite Forall_forall in Hcs. apply list_elem_of_In in Hc0.
    specialize (Hcs c0 Hc0). destruct c0 as [|y c0]; [constructor|].
    now inversion Hcs.
Qed.

(** X21: when no label and no cell of the forecast frame contains a
    line feed, the CSV text [to_csv] writes has one line for the header and
    one line for every row of the frame, commas and quotes in the fields
    notwithstanding. *)
Theorem to_csv_line_count (ff : forecast_frame) :
  Csv.line_feeds (f_index_name ff) = 0%nat ->
  Forall (fun c => Csv.line_feeds (fst c) = 0%nat
                   /\ Forall (fun x => Csv.line_feeds x = 0%nat) (snd c)) (f_cols ff) ->
  Forall (fun i => Csv.line_feeds (show_value i) = 0%nat) (f_index ff) ->
  Csv.line_feeds (to_csv ff) = S (length (f_index ff)).
Proof.
  intros Hname Hcols Hidx. unfold to_csv, csv_rows.
  rewrite line_feeds_write.
  - cbn [length]. now rewrite length_data_rows.
  - rewrite Forall_forall in Hcols. constructor.
    + unfold header_row. constructor; [exact Hname|].
      apply Forall_forall. intros x Hx.
      apply list_elem_of_In, in_map_iff in Hx as (c & <- & Hc).
      apply list_elem_of_In in Hc. now destruct (Hcols c Hc).
    + apply data_rows_no_line_feed; [assumption|].
      apply Forall_forall. intros x Hx.
      apply list_elem_of_In, in_map_iff in Hx as (c & <- & Hc).
      apply list_elem_of_In in Hc. now destruct (Hcols c Hc).
Qed.

Lemma to_csv_line_count_witness :
  Csv.line_feeds (to_csv sales_forecast) = S (length (f_index sales_forecast)).
Proof.
  apply (to_csv_line_count sales_forecast).
  - reflexivity.
  - repeat constructor.
  - repeat constructor.
Defined.
